(** * contract_checker: the credit ledger and the job lifecycle

    A shallow embedding of the accounting core of the repository: the
    [Wallet] ledger with its overdraft guard, the [User] wrapper that
    forwards to it, and the [MLJob] record whose [enqueue] charges the
    wallet; and of what surrounds it: the checks made when a [User] or an
    [Admin] is built (with the part of [re] the e-mail check needs) and
    [Model.predict].  Password hashing ([bcrypt]) is left out.

    The repository holds the same classes twice: split over the package
    [src/app/models/*.py] and in the single file [src/task_1.py].  The two
    copies declare the same fields and differ in the parameter lists of
    [Wallet.credit] and [Wallet.debit] and in the text of one error
    message ([task_1.py] also reads the clock with [utcnow] where the
    package uses [now]).  The package is embedded in the module [App]; the
    module [Task1] works on the same records and embeds again the methods
    of [task_1.py] that differ, or that call one that differs. *)

From Stdlib Require Import ZArith List String Ascii Bool Lia.
From Stdlib Require Import DecimalString PrimFloat.
Import ListNotations.
Open Scope string_scope.
Open Scope Z_scope.

(** ** The Python run time that the code relies on *)

(** The exceptions the modelled code can raise.  [ValueError] carries its
    message; [TypeError] is what the interpreter raises when a call passes
    arguments the [def] has no parameter for (or omits a required one), and
    [AttributeError] what it raises on attribute access through [None]. *)
Inductive exn : Type :=
| ValueError (msg : string)
| TypeError
| AttributeError.

(** A method mutates [self] and either returns or raises: a computation
    takes the object's state and yields the state it leaves behind together
    with the outcome.  A raise keeps whatever was mutated before it. *)
Definition M (St A : Type) : Type := St -> St * (exn + A).

Definition ret {St A} (a : A) : M St A := fun s => (s, inr a).

Definition raise {St A} (e : exn) : M St A := fun s => (s, inl e).

Definition bind {St A B} (m : M St A) (k : A -> M St B) : M St B :=
  fun s =>
    match m s with
    | (s', inr a) => k a s'
    | (s', inl e) => (s', inl e)
    end.

Definition get {St} : M St St := fun s => (s, inr s).

Definition modify {St} (f : St -> St) : M St unit := fun s => (f s, inr tt).

Notation "x <- m ;; k" := (bind m (fun x => k))
  (at level 61, m at next level, right associativity).
Notation "m ;; k" := (bind m (fun _ => k))
  (at level 61, right associativity).

(** The state a computation leaves and what it produced. *)
Definition state_of {St A} (r : St * (exn + A)) : St := fst r.
Definition outcome {St A} (r : St * (exn + A)) : exn + A := snd r.

(** [datetime.now()] / [datetime.utcnow()]: the clock reading is supplied by
    the environment, so every operation that stamps a time takes it as an
    argument. *)
Definition datetime : Type := Z.

(** ** Amounts: [int] arguments and [Decimal] values *)

(** Every amount in the repository starts as a Python [int] (the top-ups
    of [main.py], [pages * price_per_page] in [enqueue]), and the embedding
    covers these calls: an amount argument is an integer, or, in [enqueue],
    the decimal just converted from one.  Amounts given as a [Decimal]
    with a fraction or as a [float] are outside the embedding.  The
    decimals that then arise (amounts converted from an [int], balances
    computed from them) all have an integral value, and a [Decimal] is
    held as that value.  Its exponent, which only the written form shows,
    follows from where the value comes from: 0 for a decimal converted from
    an [int], [exponent] below for a result of the context's arithmetic. *)
Definition Decimal : Type := Z.

(** The number of decimal digits of [n], sign aside ([len(str(abs(n)))]);
    the binary length of [n] is fuel enough, since a division by 10 takes
    away more than one binary digit. *)
Fixpoint ndigits_fuel (fuel : nat) (n : Z) : Z :=
  match fuel with
  | O => 1
  | S fuel' => if n <? 10 then 1 else 1 + ndigits_fuel fuel' (n / 10)
  end.

Definition ndigits (n : Z) : Z :=
  ndigits_fuel (Z.to_nat (Z.log2 (Z.abs n))) (Z.abs n).

(** [str(n)] on an [int] raises [ValueError] when [n] has more digits than
    [sys.get_int_max_str_digits()], 4300 unless the program changes it
    (CPython 3.11 and later); the code never changes it. *)
Definition int_max_str_digits : Z := 4300.

Definition accepted (n : Z) : bool := ndigits n <=? int_max_str_digits.

(** [Decimal(str(n))] for an [int] [n]: the conversion to a string may
    raise; the string is then read back exactly. *)
Definition int_limit_message : string :=
  "Exceeds the limit (4300 digits) for integer string conversion; "
  ++ "use sys.set_int_max_str_digits() to increase the limit".

Definition Decimal_of_int {St} (n : Z) : M St Decimal :=
  if accepted n then ret n else raise (ValueError int_limit_message).

(** The default context, which the code never changes: 28 significant
    digits, rounding half to even.  Its exponent limit (Emax = 999999,
    beyond which an operation raises [Overflow]) plays no part: an amount
    has at most 4300 digits, and the balance of a wallet is shown below
    never to have more than 4329. *)
Definition prec : Z := 28.

(** The exponent the context leaves on a result of value [v]: the digits
    beyond the 28th are dropped from the coefficient. *)
Definition exponent (v : Z) : Z := Z.max 0 (ndigits v - prec).

(** The rounding the context applies to an exact result ([Decimal._fix]):
    a value of more than 28 digits is rounded to a multiple of
    [10 ^ exponent], half-way cases to the even coefficient. *)
Definition Decimal_fix (v : Z) : Decimal :=
  let e := exponent v in
  if e =? 0 then v
  else
    let unit := 10 ^ e in
    let q := Z.abs v / unit in
    let r := Z.abs v mod unit in
    let q' := if (unit <? 2 * r) || ((2 * r =? unit) && Z.odd q)
              then q + 1 else q in
    Z.sgn v * (q' * unit).

(** [a + b] and [a - b] on decimals. *)
Definition Decimal_add (a b : Decimal) : Decimal := Decimal_fix (a + b).

Definition Decimal_sub (a b : Decimal) : Decimal := Decimal_fix (a - b).

(** [str(d)] for a decimal converted from an [int] (exponent 0): all its
    digits. *)
Definition str (d : Decimal) : string := NilZero.string_of_int (Z.to_int d).

(** [str(d)] for a result of the context's arithmetic, such as the
    balance: all its digits while the exponent is 0, and the scientific
    form otherwise, as in [1.000000000000000000000000000E+28]. *)
Definition str_context (d : Decimal) : string :=
  let e := exponent d in
  if e =? 0 then str d
  else
    match str (Z.abs d / 10 ^ e) with
    | EmptyString => EmptyString
    | String first rest =>
        (if d <? 0 then "-" else "")
        ++ String first ("." ++ rest) ++ "E+" ++ str (ndigits d - 1)
    end.

(** ** [models/other.py]: the enumerations *)

Inductive Role : Type := USER | ADMIN.

Inductive TxType : Type := CREDIT | DEBIT.

Inductive JobStatus : Type := QUEUED | RUNNING | DONE | ERROR.

Inductive SummaryDepth : Type := BRIEF | BULLET | DETAILED.

Inductive RiskLevel : Type := LOW | MEDIUM | HIGH.

(** ** The plain data records *)

Module Transaction.
(** [models/transaction.py]; [trans_time] defaults to the clock reading
    at construction. *)
Record t : Type := mk {
  id : Z;
  user_id : Z;
  tx_type : TxType;
  amount : Decimal;
  trans_time : datetime
}.
End Transaction.

Module Document.
(** [models/document.py] *)
Record t : Type := mk {
  id : Z;
  user_id : Z;
  filename : string;
  raw_text : string;
  pages : Z;
  language : string;
  uploaded_at : datetime
}.
End Document.

Module Model.
(** [models/model.py]; [active] is the class attribute [True]. *)
Record t : Type := mk {
  name : string;
  price_per_page : Z;
  active : bool
}.

(** [Model(name, price_per_page=1)] *)
Definition init (name : string) (price_per_page : Z) : t :=
  mk name price_per_page true.

(** [predict(self, text)]: the f-string
    ["Processed by {self.name}: {text[:50]}..."]. *)
Definition predict (self : t) (text : string) : string :=
  "Processed by " ++ name self ++ ": " ++ substring 0 50 text ++ "...".
End Model.

Module RiskClause.
(** [models/riskclause.py] *)
Record t : Type := mk {
  clause_text : string;
  risk_level : RiskLevel;
  explanation : option string
}.
End RiskClause.

(** ** The part of the library module [re] that the code uses *)

(** A character of a string stands for the code point of the same number,
    so the strings of the embedding are the Python strings whose code
    points lie below 256. *)

Module re.
Definition in_range (lo hi : N) (c : ascii) : bool :=
  (lo <=? N_of_ascii c)%N && (N_of_ascii c <=? hi)%N.

(** The class [\w] of a [str] pattern: the alphanumeric characters
    ([str.isalnum]) and the underscore.  Below 256 these are the digits,
    the letters and the underscore of ASCII and the letters and numeric
    signs of Latin-1. *)
Definition word_char (c : ascii) : bool :=
  in_range 48 57 c || in_range 65 90 c || in_range 95 95 c
  || in_range 97 122 c || in_range 170 170 c || in_range 178 179 c
  || in_range 181 181 c || in_range 185 186 c || in_range 188 190 c
  || in_range 192 214 c || in_range 216 246 c || in_range 248 255 c.

(** The set [[\w\.-]]. *)
Definition word_dot_dash (c : ascii) : bool :=
  word_char c || (c =? ".")%char || (c =? "-")%char.

(** The pieces a pattern of the code is made of: the anchors [^] and [$],
    a literal character (escaped or not) and a character class under
    [+]. *)
Inductive token : Type :=
| Bol
| Eol
| Lit (c : ascii)
| Plus (cls : ascii -> bool).

(** One or more characters of [cls], then what [k] accepts; every split
    is tried, as the backtracking of the library does. *)
Fixpoint plus_loop (cls : ascii -> bool) (k : string -> bool) (s : string)
    : bool :=
  match s with
  | EmptyString => false
  | String c s' => cls c && (k s' || plus_loop cls k s')
  end.

(** Does the pattern match all of [s]?  [at_start] tells whether [s] is
    still the whole subject.  [^] matches at the start only; [$] matches
    at the end and before a newline that ends the subject. *)
Fixpoint fullmatch_at (pattern : list token) (at_start : bool) (s : string)
    {struct pattern} : bool :=
  match pattern with
  | [] => match s with EmptyString => true | String _ _ => false end
  | Bol :: rest => at_start && fullmatch_at rest at_start s
  | Eol :: rest =>
      match s with
      | EmptyString => true
      | String c EmptyString => (c =? "010")%char
      | String _ (String _ _) => false
      end && fullmatch_at rest at_start s
  | Lit c :: rest =>
      match s with
      | EmptyString => false
      | String c' s' => (c' =? c)%char && fullmatch_at rest false s'
      end
  | Plus cls :: rest => plus_loop cls (fullmatch_at rest false) s
  end.

(** [re.fullmatch(pattern, s)] read as a truth value. *)
Definition fullmatch (pattern : list token) (s : string) : bool :=
  fullmatch_at pattern true s.
End re.

(** ** The ledger sums the invariants speak of *)

(** Sum of the amounts of the transactions of one kind. *)
Fixpoint sum_kind (k : TxType) (txs : list Transaction.t) : Z :=
  match txs with
  | [] => 0
  | tx :: rest =>
      match k, Transaction.tx_type tx with
      | CREDIT, CREDIT | DEBIT, DEBIT => Transaction.amount tx + sum_kind k rest
      | _, _ => sum_kind k rest
      end
  end.

(** [Σ credits − Σ debits] over a transaction sequence. *)
Definition ledger_sum (txs : list Transaction.t) : Z :=
  sum_kind CREDIT txs - sum_kind DEBIT txs.

(** ** The package [src/app/models] *)

Module App.

Module Wallet.
(** [models/wallet.py].  [_balance] is the balance the class keeps by
    itself: the [Decimal("0")] of a new wallet, or what [_add_tx] has made
    of it; no caller in the repository passes one to the constructor. *)
Record t : Type := mk {
  user_id : Z;
  _balance : Decimal;
  transactions : list Transaction.t
}.

(** [Wallet(user_id=...)]: balance [Decimal("0")], no transactions. *)
Definition init (user_id : Z) : t := mk user_id 0 [].

(** The read-only property [balance]. *)
Definition balance (self : t) : Decimal := _balance self.

(** Appends [tx] to the history, then moves the balance by its amount in
    the direction its kind gives. *)
Definition _add_tx (tx : Transaction.t) : M t unit :=
  modify (fun self =>
    mk (user_id self) (_balance self) (transactions self ++ [tx])) ;;
  match Transaction.tx_type tx with
  | CREDIT =>
      modify (fun self =>
        mk (user_id self)
           (Decimal_add (_balance self) (Transaction.amount tx))
           (transactions self))
  | DEBIT =>
      modify (fun self =>
        mk (user_id self)
           (Decimal_sub (_balance self) (Transaction.amount tx))
           (transactions self))
  end.

(** [def credit(self, amount)] *)
Definition credit (amount : Z) (now : datetime) : M t Transaction.t :=
  amount <- Decimal_of_int amount ;;
  self <- get ;;
  let tx :=
    Transaction.mk (Z.of_nat (List.length (transactions self)) + 1)
                   (user_id self) CREDIT amount now in
  _add_tx tx ;;
  ret tx.

(** [def debit(self, amount)] *)
Definition debit (amount : Z) (now : datetime) : M t Transaction.t :=
  amount <- Decimal_of_int amount ;;
  self <- get ;;
  if _balance self <? amount then
    raise (ValueError ("Insufficient balance:"
                       ++ str_context (_balance self)
                       ++ " < " ++ str amount))
  else
    let tx :=
      Transaction.mk (Z.of_nat (List.length (transactions self)) + 1)
                     (user_id self) DEBIT amount now in
    _add_tx tx ;;
    ret tx.

(** A call [wallet.credit(amount, *extra)]: the [def] has the single
    parameter [amount] after [self], so any further positional
    argument makes the interpreter raise [TypeError] before the body
    runs. *)
Definition call_credit (amount : Z) (extra : list string)
    (now : datetime) : M t Transaction.t :=
  match extra with
  | [] => credit amount now
  | _ :: _ => raise TypeError
  end.

(** A call [wallet.debit(amount, *extra)], likewise. *)
Definition call_debit (amount : Z) (extra : list string)
    (now : datetime) : M t Transaction.t :=
  match extra with
  | [] => debit amount now
  | _ :: _ => raise TypeError
  end.
End Wallet.

Module User.
(** [models/user.py] *)
Record t : Type := mk {
  id : Z;
  username : string;
  email : string;
  password : string;
  role : Role;
  wallet : option Wallet.t
}.

Definition set_wallet (self : t) (w : option Wallet.t) : t :=
  mk (id self) (username self) (email self) (password self) (role self) w.

(** Run a method of [self.wallet]: the wallet object is owned by the
    user, so its mutation is the user's; through [None] the attribute
    lookup raises. *)
Definition on_wallet {A} (m : M Wallet.t A) : M t A :=
  fun self =>
    match wallet self with
    | None => (self, inl AttributeError)
    | Some w => let (w', r) := m w in (set_wallet self (Some w'), r)
    end.

(** The property [balance]. *)
Definition balance (self : t) : Decimal :=
  match wallet self with
  | Some w => Wallet.balance w
  | None => 0
  end.

(** [def credit(self, amount, ref="topup")]:
    [return self.wallet.credit(amount, ref)] *)
Definition credit (amount : Z) (ref : string) (now : datetime)
    : M t Transaction.t :=
  on_wallet (Wallet.call_credit amount [ref] now).

(** [def debit(self, amount, ref)]:
    [return self.wallet.debit(amount, ref)] *)
Definition debit (amount : Z) (ref : string) (now : datetime)
    : M t Transaction.t :=
  on_wallet (Wallet.call_debit amount [ref] now).
End User.

Module Admin.
(** [models/admin.py]: [credit_user(self, other, amount,
    note="admin_topup")] returns [other.credit(amount, note)]; the
    state it runs on is [other]. *)
Definition credit_user (amount : Z) (note : string) (now : datetime)
    : M User.t Transaction.t :=
  User.credit amount note now.
End Admin.

Module MLJob.
(** [models/mljob.py] *)
Record t : Type := mk {
  id : Z;
  document : Document.t;
  model : Model.t;
  status : JobStatus;
  summary_depth : SummaryDepth;
  used_credits : Decimal;
  summary_text : option string;
  risk_score : option float;
  risk_clauses : list RiskClause.t;
  started_at : option datetime;
  finished_at : option datetime
}.

(** Attribute assignments, one per field the methods write. *)
Definition set_status (v : JobStatus) (self : t) : t :=
  mk (id self) (document self) (model self) v (summary_depth self)
     (used_credits self) (summary_text self) (risk_score self)
     (risk_clauses self) (started_at self) (finished_at self).

Definition set_summary_text (v : option string) (self : t) : t :=
  mk (id self) (document self) (model self) (status self)
     (summary_depth self) (used_credits self) v (risk_score self)
     (risk_clauses self) (started_at self) (finished_at self).

Definition set_risk_score (v : option float) (self : t) : t :=
  mk (id self) (document self) (model self) (status self)
     (summary_depth self) (used_credits self) (summary_text self) v
     (risk_clauses self) (started_at self) (finished_at self).

Definition set_risk_clauses (v : list RiskClause.t) (self : t) : t :=
  mk (id self) (document self) (model self) (status self)
     (summary_depth self) (used_credits self) (summary_text self)
     (risk_score self) v (started_at self) (finished_at self).

Definition set_started_at (v : option datetime) (self : t) : t :=
  mk (id self) (document self) (model self) (status self)
     (summary_depth self) (used_credits self) (summary_text self)
     (risk_score self) (risk_clauses self) v (finished_at self).

Definition set_finished_at (v : option datetime) (self : t) : t :=
  mk (id self) (document self) (model self) (status self)
     (summary_depth self) (used_credits self) (summary_text self)
     (risk_score self) (risk_clauses self) (started_at self) v.

Definition start (now : datetime) : M t unit :=
  modify (set_status RUNNING) ;;
  modify (set_started_at (Some now)).

Definition finish_ok (summary : string) (clauses : list RiskClause.t)
    (score : float) (now : datetime) : M t unit :=
  modify (set_status DONE) ;;
  modify (set_summary_text (Some summary)) ;;
  modify (set_risk_clauses clauses) ;;
  modify (set_risk_score (Some score)) ;;
  modify (set_finished_at (Some now)).

Definition finish_error (msg : string) (now : datetime) : M t unit :=
  modify (set_status ERROR) ;;
  modify (set_summary_text (Some ("Error: " ++ msg))) ;;
  modify (set_finished_at (Some now)).

(** The class method [enqueue(cls, user, document, model, depth)]; the
    state it runs on is [user].  The job is built only after
    [user.debit] has returned.  [debit] is handed the decimal [cost] and
    converts it once more; [Decimal(str(d))] gives a decimal [d] back, as
    [Decimal_of_int] does with a value it has let through before. *)
Definition enqueue (document : Document.t) (model : Model.t)
    (depth : SummaryDepth) (now : datetime) : M User.t t :=
  cost <- Decimal_of_int
            (Document.pages document * Model.price_per_page model) ;;
  User.debit cost ("ML processing: " ++ Document.filename document) now ;;
  ret (mk 1 document model QUEUED depth cost None None [] None None).
End MLJob.

End App.

(** ** The single file [src/task_1.py] *)

Module Task1.

Module Wallet.
(** [def credit(self, amount, ref="topup")]; [ref] is not used by the
    body. *)
Definition credit (amount : Z) (ref : string) (now : datetime)
    : M App.Wallet.t Transaction.t :=
  amount <- Decimal_of_int amount ;;
  self <- get ;;
  let tx :=
    Transaction.mk
      (Z.of_nat (List.length (App.Wallet.transactions self)) + 1)
      (App.Wallet.user_id self) CREDIT amount now in
  App.Wallet._add_tx tx ;;
  ret tx.

(** [def debit(self, amount, ref)] *)
Definition debit (amount : Z) (ref : string) (now : datetime)
    : M App.Wallet.t Transaction.t :=
  amount <- Decimal_of_int amount ;;
  self <- get ;;
  if App.Wallet._balance self <? amount then
    raise (ValueError ("Insufficient balance: "
                       ++ str_context (App.Wallet._balance self)
                       ++ " < " ++ str amount))
  else
    let tx :=
      Transaction.mk
        (Z.of_nat (List.length (App.Wallet.transactions self)) + 1)
        (App.Wallet.user_id self) DEBIT amount now in
    App.Wallet._add_tx tx ;;
    ret tx.

(** A call [wallet.credit(amount, *extra)]: [ref] may be left to its
    default. *)
Definition call_credit (amount : Z) (extra : list string)
    (now : datetime) : M App.Wallet.t Transaction.t :=
  match extra with
  | [] => credit amount "topup" now
  | [ref] => credit amount ref now
  | _ :: _ :: _ => raise TypeError
  end.

(** A call [wallet.debit(amount, *extra)]: [ref] is required. *)
Definition call_debit (amount : Z) (extra : list string)
    (now : datetime) : M App.Wallet.t Transaction.t :=
  match extra with
  | [ref] => debit amount ref now
  | _ => raise TypeError
  end.
End Wallet.

Module User.
(** [return self.wallet.credit(amount, ref)] *)
Definition credit (amount : Z) (ref : string) (now : datetime)
    : M App.User.t Transaction.t :=
  App.User.on_wallet (Wallet.call_credit amount [ref] now).

(** [return self.wallet.debit(amount, ref)] *)
Definition debit (amount : Z) (ref : string) (now : datetime)
    : M App.User.t Transaction.t :=
  App.User.on_wallet (Wallet.call_debit amount [ref] now).
End User.

Module Admin.
(** [return other.credit(amount, note)] *)
Definition credit_user (amount : Z) (note : string) (now : datetime)
    : M App.User.t Transaction.t :=
  User.credit amount note now.
End Admin.

Module MLJob.
(** [enqueue] of [task_1.py]: the same text as the package's, charging
    through this file's [User.debit]. *)
Definition enqueue (document : Document.t) (model : Model.t)
    (depth : SummaryDepth) (now : datetime) : M App.User.t App.MLJob.t :=
  cost <- Decimal_of_int
            (Document.pages document * Model.price_per_page model) ;;
  User.debit cost ("ML processing: " ++ Document.filename document) now ;;
  ret (App.MLJob.mk 1 document model QUEUED depth cost
                    None None [] None None).
End MLJob.

End Task1.

(** ** Call sequences on one wallet *)

(** One call on a wallet, with the clock reading it sees. *)
Inductive call : Type :=
| Credit (amount : Z) (now : datetime)
| Debit (amount : Z) (now : datetime).

(** The method call that [c] stands for: [wallet.credit(amount)] or
    [wallet.debit(amount)]. *)
Definition perform (c : call) : M App.Wallet.t Transaction.t :=
  match c with
  | Credit amount now => App.Wallet.credit amount now
  | Debit amount now => App.Wallet.debit amount now
  end.

(** The caller goes on after a call whether it returned or raised; the
    wallet is left as the call left it. *)
Definition step (w : App.Wallet.t) (c : call) : App.Wallet.t :=
  state_of (perform c w).

(** The wallet after a sequence of calls, first call first. *)
Definition run (calls : list call) (w : App.Wallet.t) : App.Wallet.t :=
  fold_left step calls w.

(** Every credit of the sequence has a non-negative amount. *)
Fixpoint credits_nonneg (calls : list call) : bool :=
  match calls with
  | [] => true
  | Credit amount _ :: rest => (0 <=? amount) && credits_nonneg rest
  | Debit _ _ :: rest => credits_nonneg rest
  end.

(** ** The data of the demonstration in [main.py] *)

Definition demo_document : Document.t :=
  Document.mk 1 1 "contract_supply.pdf" "karpov.courses" 8 "RU" 0.

Definition demo_model : Model.t := Model.init "Legal-Analyzer-RU" 3.

(** The wallet of user 1 after a single top-up. *)
Definition demo_wallet (topup : Z) : App.Wallet.t :=
  run [Credit topup 1] (App.Wallet.init 1).

(** User 1 of [main.py] (the password field holds an opaque hash) with a
    wallet topped up once. *)
Definition demo_user (topup : Z) : App.User.t :=
  App.User.mk 1 "karpov" "karpov@jurist.ru" "$2b$12$opaque.bcrypt.hash"
              USER (Some (demo_wallet topup)).

(** A job as [enqueue] builds it, and the same job driven to [DONE] with
    the score 0.7 (written as the binary64 value nearest to it). *)
Definition demo_job : App.MLJob.t :=
  App.MLJob.mk 1 demo_document demo_model QUEUED BULLET 24
               None None [] None None.

Definition demo_job_done : App.MLJob.t :=
  state_of
    ((App.MLJob.start 10 ;; App.MLJob.finish_ok "summary" [] 0x1.6666666666666p-1%float 20)
       demo_job).

(** ** Building accounts: [User.__post_init__] and [Admin.__init__] *)

(** These methods have the same text in [models/user.py],
    [models/admin.py] and [task_1.py]. *)

Module Construct.
(** The pattern [^[\w\.-]+@[\w\.-]+\.\w+$] of [_validate_email]. *)
Definition email_pattern : list re.token :=
  [re.Bol; re.Plus re.word_dot_dash; re.Lit "@"; re.Plus re.word_dot_dash;
   re.Lit "."; re.Plus re.word_char; re.Eol].

Definition _validate_email : M App.User.t unit :=
  self <- get ;;
  if negb (re.fullmatch email_pattern (App.User.email self)) then
    raise (ValueError "Invalid email")
  else ret tt.

(** The sign [≥] of the message lies above code point 255 and is held in
    its UTF-8 encoding. *)
Definition _validate_password : M App.User.t unit :=
  self <- get ;;
  if (String.length (App.User.password self) <? 8)%nat then
    raise (ValueError "Password must be ≥ 8 chars")
  else ret tt.

Definition __post_init__ : M App.User.t unit :=
  _validate_email ;;
  _validate_password ;;
  self <- get ;;
  match App.User.wallet self with
  | None =>
      modify (fun self =>
        App.User.set_wallet self
          (Some (App.Wallet.init (App.User.id self))))
  | Some _ => ret tt
  end.

(** [User(id, username, email, password, role, wallet)]: the generated
    [__init__] stores the fields and runs [__post_init__]; when that
    raises there is no object. *)
Definition User (id : Z) (username email password : string) (role : Role)
    (wallet : option App.Wallet.t) : exn + App.User.t :=
  match __post_init__ (App.User.mk id username email password role wallet)
  with
  | (self, inr _) => inr self
  | (_, inl e) => inl e
  end.

(** [Admin(user_id, username, email, password)]: [super().__init__] with
    [role=Role.ADMIN] and no wallet. *)
Definition Admin (user_id : Z) (username email password : string)
    : exn + App.User.t :=
  User user_id username email password ADMIN None.
End Construct.

(** ** Call sequences on one account of [task_1.py] *)





(** ** Call sequences on one job *)

Inductive job_call : Type :=
| Start (now : datetime)
| FinishOk (summary : string) (clauses : list RiskClause.t) (score : float)
           (now : datetime)
| FinishError (msg : string) (now : datetime).

Definition job_perform (c : job_call) : M App.MLJob.t unit :=
  match c with
  | Start now => App.MLJob.start now
  | FinishOk summary clauses score now =>
      App.MLJob.finish_ok summary clauses score now
  | FinishError msg now => App.MLJob.finish_error msg now
  end.

Definition job_run (calls : list job_call) (j : App.MLJob.t) : App.MLJob.t :=
  fold_left (fun j c => state_of (job_perform c j)) calls j.

(** The status a lifecycle method assigns. *)
Definition status_set_by (c : job_call) : JobStatus :=
  match c with
  | Start _ => RUNNING
  | FinishOk _ _ _ _ => DONE
  | FinishError _ _ => ERROR
  end.

(** ** Strings *)

(** Every character of [s] satisfies [p]. *)
Fixpoint all_chars (p : ascii -> bool) (s : string) : bool :=
  match s with
  | EmptyString => true
  | String c s' => p c && all_chars p s'
  end.

(** How often [c] occurs in [s]. *)
Fixpoint count_char (c : ascii) (s : string) : nat :=
  match s with
  | EmptyString => 0
  | String c' s' => (if (c' =? c)%char then 1 else 0) + count_char c s'
  end.

(** Every transaction of the wallet carries the wallet's [user_id]. *)
Definition owned (w : App.Wallet.t) : Prop :=
  Forall (fun tx => Transaction.user_id tx = App.Wallet.user_id w)
         (App.Wallet.transactions w).

(** ** Notions the properties are stated with *)

(** The transaction a call records on [w]: its id is the length of the
    history plus one. *)
Definition next_tx (w : App.Wallet.t) (k : TxType) (amount : Z)
    (now : datetime) : Transaction.t :=
  Transaction.mk (Z.of_nat (List.length (App.Wallet.transactions w)) + 1)
                 (App.Wallet.user_id w) k amount now.

(** The wallet once [tx] is recorded with the balance moved to [b]. *)
Definition recorded (w : App.Wallet.t) (b : Z) (tx : Transaction.t)
    : App.Wallet.t :=
  App.Wallet.mk (App.Wallet.user_id w) b (App.Wallet.transactions w ++ [tx]).

(** The stored balance agrees with the history. *)
Definition balanced (w : App.Wallet.t) : Prop :=
  App.Wallet.balance w = ledger_sum (App.Wallet.transactions w).


(** The context has not rounded so far: at every point of the call
    sequence on [Wallet(user_id)] the signed sum of the recorded
    transactions has fewer than 29 digits. *)
Definition within_precision (user_id : Z) (calls : list call) : Prop :=
  forall n,
    Z.abs (ledger_sum
             (App.Wallet.transactions
                (run (firstn n calls) (App.Wallet.init user_id))))
    < 10 ^ 28.


(** What a call through [self.wallet] raises when the method does not take
    the arguments passed. *)
Definition call_error (u : App.User.t) : exn :=
  match App.User.wallet u with
  | Some _ => TypeError
  | None => AttributeError
  end.

(** * Properties *)

(** ** Digits, the conversion limit and the rounding of the context *)

Lemma ndigits_fuel_upper (fuel : nat) (n k : Z) :
  0 <= n < 10 ^ k -> 1 <= k -> ndigits_fuel fuel n <= k.
Proof.
  revert n k. induction fuel as [| fuel IH]; intros n k Hn Hk;
    cbn [ndigits_fuel]; [lia |].
  destruct (Z.ltb_spec n 10) as [_ | Hten]; [lia |].
  assert (Hk2 : 2 <= k).
  { destruct (Z.eq_dec k 1) as [-> | Hne]; [| lia].
    change (10 ^ 1) with 10 in Hn. lia. }
  assert (Hpow : 10 ^ k = 10 * 10 ^ (k - 1)).
  { rewrite <- Z.pow_succ_r by lia. f_equal. lia. }
  assert (Hdiv : 0 <= n / 10 < 10 ^ (k - 1)).
  { split; [apply Z.div_pos; lia |].
    apply Z.div_lt_upper_bound; lia. }
  specialize (IH (n / 10) (k - 1) Hdiv). lia.
Qed.

Lemma ndigits_fuel_positive (fuel : nat) (n : Z) : 1 <= ndigits_fuel fuel n.
Proof.
  revert n. induction fuel as [| fuel IH]; intros n; cbn [ndigits_fuel];
    [lia |].
  destruct (n <? 10); [lia |]. specialize (IH (n / 10)). lia.
Qed.

Lemma ndigits_fuel_lower (fuel : nat) (n k : Z) :
  0 <= k -> 10 ^ k <= n -> n < 2 ^ (Z.of_nat fuel + 1) ->
  k < ndigits_fuel fuel n.
Proof.
  revert n k. induction fuel as [| fuel IH]; intros n k Hk Hlow Hup.
  - cbn [ndigits_fuel]. change (2 ^ (Z.of_nat 0 + 1)) with 2 in Hup.
    destruct (Z.eq_dec k 0) as [-> | Hne]; [lia |].
    assert (10 ^ 1 <= 10 ^ k) by (apply Z.pow_le_mono_r; lia).
    change (10 ^ 1) with 10 in *. lia.
  - cbn [ndigits_fuel]. destruct (Z.ltb_spec n 10) as [Hsmall | Hten].
    + destruct (Z.eq_dec k 0) as [-> | Hne]; [lia |].
      assert (10 ^ 1 <= 10 ^ k) by (apply Z.pow_le_mono_r; lia).
      change (10 ^ 1) with 10 in *. lia.
    + destruct (Z.eq_dec k 0) as [-> | Hne].
      { pose proof (ndigits_fuel_positive fuel (n / 10)). lia. }
      assert (Hpow : 10 ^ k = 10 * 10 ^ (k - 1)).
      { rewrite <- Z.pow_succ_r by lia. f_equal. lia. }
      assert (Hlow' : 10 ^ (k - 1) <= n / 10).
      { apply Z.div_le_lower_bound; lia. }
      assert (Hup' : n / 10 < 2 ^ (Z.of_nat fuel + 1)).
      { apply Z.div_lt_upper_bound; [lia |].
        replace (Z.of_nat (S fuel) + 1) with (Z.succ (Z.of_nat fuel + 1))
          in Hup by lia.
        rewrite Z.pow_succ_r in Hup by lia. lia. }
      specialize (IH (n / 10) (k - 1)). lia.
Qed.

(** [ndigits] counts the digits: a number of [d] digits lies from
    [10 ^ (d - 1)] up to, but not at, [10 ^ d]. *)
Lemma ndigits_upper (n k : Z) :
  Z.abs n < 10 ^ k -> 1 <= k -> ndigits n <= k.
Proof.
  intros Hn Hk. unfold ndigits. apply ndigits_fuel_upper; lia.
Qed.

Lemma ndigits_lower (n k : Z) :
  0 <= k -> 10 ^ k <= Z.abs n -> k < ndigits n.
Proof.
  intros Hk Hn. unfold ndigits. apply ndigits_fuel_lower; try assumption.
  assert (Hpos : 0 < Z.abs n).
  { pose proof (Z.pow_pos_nonneg 10 k). lia. }
  rewrite Z2Nat.id by apply Z.log2_nonneg.
  apply Z.log2_spec, Hpos.
Qed.

(** The conversion of an [int] goes through exactly below [10 ^ 4300]. *)
Lemma accepted_below_limit (n : Z) :
  Z.abs n < 10 ^ 4300 -> accepted n = true.
Proof.
  intros Hn. unfold accepted, int_max_str_digits.
  apply Z.leb_le, ndigits_upper; [exact Hn | clear Hn; lia].
Qed.


Lemma accepted_nonpositive (n : Z) :
  n <= 0 -> - 10 ^ 4300 < n -> accepted n = true.
Proof.
  intros Hsign Hsize. apply accepted_below_limit, Z.abs_lt.
  split; [exact Hsize |].
  apply (Z.le_lt_trans _ _ _ Hsign).
  clear Hsign Hsize. apply Z.pow_pos_nonneg; lia.
Qed.

Lemma refused_from_limit (n : Z) :
  10 ^ 4300 <= Z.abs n -> accepted n = false.
Proof.
  intros Hn. unfold accepted, int_max_str_digits.
  apply Z.leb_gt, ndigits_lower; [clear Hn; lia | exact Hn].
Qed.

Lemma of_int_accepted {St} (n : Z) (s : St) :
  accepted n = true -> Decimal_of_int n s = (s, inr n).
Proof. unfold Decimal_of_int. intros ->. reflexivity. Qed.

Lemma of_int_refused {St} (n : Z) (s : St) :
  accepted n = false ->
  Decimal_of_int n s = (s, inl (ValueError int_limit_message)).
Proof. unfold Decimal_of_int. intros ->. reflexivity. Qed.

(** Below 29 digits the context does not round. *)
Lemma fix_exact (v : Z) : Z.abs v < 10 ^ 28 -> Decimal_fix v = v.
Proof.
  intros Hv. unfold Decimal_fix, exponent, prec.
  assert (ndigits v <= 28) by (apply ndigits_upper; [exact Hv | lia]).
  replace (Z.max 0 (ndigits v - 28)) with 0 by lia. reflexivity.
Qed.

(** Rounding keeps the sign. *)
Lemma fix_nonneg (v : Z) : 0 <= v -> 0 <= Decimal_fix v.
Proof.
  intros Hv. unfold Decimal_fix.
  destruct (exponent v =? 0); [exact Hv |].
  assert (Hunit : 0 < 10 ^ exponent v).
  { apply Z.pow_pos_nonneg; [lia |]. unfold exponent. lia. }
  assert (Hq : 0 <= Z.abs v / 10 ^ exponent v).
  { apply Z.div_pos; lia. }
  apply Z.mul_nonneg_nonneg; [lia |].
  apply Z.mul_nonneg_nonneg; [| lia].
  destruct (_ || _); lia.
Qed.

Lemma ndigits_positive (n : Z) : 1 <= ndigits n.
Proof. unfold ndigits. apply ndigits_fuel_positive. Qed.

Lemma ndigits_spec (n : Z) :
  n <> 0 -> 10 ^ (ndigits n - 1) <= Z.abs n < 10 ^ ndigits n.
Proof.
  intros Hn. pose proof (ndigits_positive n) as Hd. split.
  - destruct (Z.le_gt_cases (10 ^ (ndigits n - 1)) (Z.abs n)) as [H | H];
      [exact H |].
    destruct (Z.eq_dec (ndigits n) 1) as [H1 | H1].
    + rewrite H1 in H. change (10 ^ (1 - 1)) with 1 in H. lia.
    + assert (Hk : 1 <= ndigits n - 1) by lia.
      pose proof (ndigits_upper n (ndigits n - 1) H Hk). lia.
  - destruct (Z.lt_ge_cases (Z.abs n) (10 ^ ndigits n)) as [H | H];
      [exact H |].
    assert (Hk : 0 <= ndigits n) by lia.
    pose proof (ndigits_lower n (ndigits n) Hk H). lia.
Qed.

Lemma ndigits_between (n k : Z) :
  0 <= k -> 10 ^ k <= Z.abs n < 10 ^ (k + 1) -> ndigits n = k + 1.
Proof.
  intros Hk [Hlo Hhi].
  assert (Hk1 : 1 <= k + 1) by lia.
  pose proof (ndigits_upper n (k + 1) Hhi Hk1).
  pose proof (ndigits_lower n k Hk Hlo). lia.
Qed.

(** What [Decimal_fix] gives on a value of more than 28 digits, with the
    quotient and the remainder named. *)
Lemma fix_rounds (v unit q r : Z) :
  28 < ndigits v ->
  unit = 10 ^ (ndigits v - 28) ->
  Z.abs v = unit * q + r ->
  0 <= r < unit ->
  Z.abs (Decimal_fix v)
  = (if (unit <? 2 * r) || ((2 * r =? unit) && Z.odd q) then q + 1 else q)
    * unit.
Proof.
  intros Hd Hunit Hqr Hr.
  assert (Hpos : 0 < unit).
  { rewrite Hunit. apply Z.pow_pos_nonneg; lia. }
  assert (Hq : q = Z.abs v / unit).
  { apply (Z.div_unique _ _ _ r); [left; exact Hr | exact Hqr]. }
  assert (Hrem : r = Z.abs v mod unit).
  { apply (Z.mod_unique _ _ q); [left; exact Hr | exact Hqr]. }
  assert (Hq0 : 0 <= q).
  { rewrite Hq. apply Z.div_pos; lia. }
  unfold Decimal_fix, exponent, prec. cbv zeta.
  replace (Z.max 0 (ndigits v - 28)) with (ndigits v - 28) by lia.
  destruct (Z.eqb_spec (ndigits v - 28) 0) as [He | _]; [lia |].
  rewrite <- Hunit, <- Hq, <- Hrem.
  assert (Hv : v <> 0).
  { intros ->. vm_compute in Hd. discriminate Hd. }
  rewrite Z.abs_mul.
  assert (Hsgn : Z.abs (Z.sgn v) = 1) by lia.
  rewrite Hsgn, Z.mul_1_l. apply Z.abs_eq.
  destruct ((unit <? 2 * r) || ((2 * r =? unit) && Z.odd q)); nia.
Qed.

(** Rounding does not take a value across a power of ten. *)
Lemma fix_bounded (K v : Z) :
  28 <= K -> Z.abs v <= 10 ^ K -> Z.abs (Decimal_fix v) <= 10 ^ K.
Proof.
  intros HK Hv.
  destruct (Z.le_gt_cases (ndigits v) 28) as [Hd | Hd].
  - unfold Decimal_fix, exponent, prec. cbv zeta.
    replace (Z.max 0 (ndigits v - 28)) with 0 by lia. exact Hv.
  - assert (Hv0 : v <> 0).
    { intros ->. vm_compute in Hd. discriminate Hd. }
    destruct (ndigits_spec v Hv0) as [Hlo Hhi].
    set (d := ndigits v) in *.
    set (unit := 10 ^ (d - 28)).
    assert (Hunit : 0 < unit) by (apply Z.pow_pos_nonneg; lia).
    assert (Hd_split : 10 ^ d = 10 ^ 28 * unit).
    { unfold unit. rewrite <- Z.pow_add_r by lia. f_equal. lia. }
    assert (Hd1_split : 10 ^ (d - 1) = 10 ^ 27 * unit).
    { unfold unit. rewrite <- Z.pow_add_r by lia. f_equal. lia. }
    pose proof (Z.div_mod (Z.abs v) unit ltac:(lia)) as Hqr.
    pose proof (Z.mod_pos_bound (Z.abs v) unit Hunit) as Hr.
    rewrite (fix_rounds v unit _ _ Hd eq_refl Hqr Hr).
    set (q := Z.abs v / unit) in *. set (r := Z.abs v mod unit) in *.
    assert (Hq : 10 ^ 27 <= q < 10 ^ 28).
    { split.
      - apply Z.div_le_lower_bound; lia.
      - apply Z.div_lt_upper_bound; lia. }
    destruct (Z.le_gt_cases d K) as [HdK | HdK].
    + assert (Hpow : 10 ^ d <= 10 ^ K) by (apply Z.pow_le_mono_r; lia).
      destruct ((unit <? 2 * r) || ((2 * r =? unit) && Z.odd q)); nia.
    + assert (Hpow : 10 ^ K <= 10 ^ (d - 1))
        by (apply Z.pow_le_mono_r; lia).
      assert (Hexact : unit * q + r = 10 ^ 27 * unit) by lia.
      assert (Hq27 : q = 10 ^ 27) by nia.
      assert (Hr0 : r = 0) by nia.
      rewrite Hr0.
      destruct (Z.ltb_spec unit (2 * 0)) as [Hlt | _]; [lia |].
      destruct (Z.eqb_spec (2 * 0) unit) as [Heq | _]; [lia |].
      simpl. lia.
Qed.

(** A balance of [K] digits and more is out of reach of an amount that is
    28 digits shorter: the sum is rounded back below [10 ^ K]. *)
Lemma fix_absorbs (K L b a : Z) :
  0 <= L -> L + 28 <= K ->
  Z.abs b <= 10 ^ K -> Z.abs a < 10 ^ L ->
  Z.abs (Decimal_fix (b + a)) <= 10 ^ K.
Proof.
  intros HL HK Hb Ha.
  destruct (Z.le_gt_cases (Z.abs (b + a)) (10 ^ K)) as [Hin | Hout].
  - apply fix_bounded; [lia | exact Hin].
  - assert (HLK : 2 * 10 ^ L < 10 ^ (K - 27)).
    { assert (H1 : 10 ^ (L + 1) <= 10 ^ (K - 27))
        by (apply Z.pow_le_mono_r; lia).
      rewrite Z.pow_add_r in H1 by lia. change (10 ^ 1) with 10 in H1.
      pose proof (Z.pow_pos_nonneg 10 L). lia. }
    assert (HK27 : 10 ^ K = 10 ^ 27 * 10 ^ (K - 27)).
    { rewrite <- Z.pow_add_r by lia. f_equal. lia. }
    assert (HK1 : 10 ^ (K + 1) = 10 * 10 ^ K).
    { rewrite Z.pow_add_r by lia. change (10 ^ 1) with 10. lia. }
    assert (Hunit : 0 < 10 ^ (K - 27)) by (apply Z.pow_pos_nonneg; lia).
    assert (Hd : ndigits (b + a) = K + 1).
    { apply ndigits_between; lia. }
    assert (Hqr : Z.abs (b + a)
                  = 10 ^ (K - 27) * 10 ^ 27 + (Z.abs (b + a) - 10 ^ K))
      by lia.
    rewrite (fix_rounds (b + a) (10 ^ (K - 27)) (10 ^ 27)
               (Z.abs (b + a) - 10 ^ K)).
    + destruct (Z.ltb_spec (10 ^ (K - 27)) (2 * (Z.abs (b + a) - 10 ^ K)))
        as [Hlt | _]; [lia |].
      destruct (Z.eqb_spec (2 * (Z.abs (b + a) - 10 ^ K)) (10 ^ (K - 27)))
        as [Heq | _]; [lia |].
      cbn [orb andb]. lia.
    + lia.
    + rewrite Hd. f_equal. lia.
    + exact Hqr.
    + lia.
Qed.

Lemma accepted_size (n : Z) : accepted n = true -> Z.abs n < 10 ^ 4300.
Proof.
  intros Hacc.
  destruct (Z.lt_ge_cases (Z.abs n) (10 ^ 4300)) as [H | H]; [exact H |].
  rewrite (refused_from_limit n H) in Hacc. discriminate Hacc.
Qed.

(** ** What one call does to a wallet *)

Lemma credit_runs (amount : Z) (now : datetime) (w : App.Wallet.t) :
  accepted amount = true ->
  App.Wallet.credit amount now w =
  (recorded w (Decimal_add (App.Wallet.balance w) amount)
            (next_tx w CREDIT amount now),
   inr (next_tx w CREDIT amount now)).
Proof.
  intros Hacc. unfold App.Wallet.credit. unfold bind at 1.
  rewrite (of_int_accepted _ _ Hacc). reflexivity.
Qed.

Lemma credit_refused (amount : Z) (now : datetime) (w : App.Wallet.t) :
  accepted amount = false ->
  App.Wallet.credit amount now w = (w, inl (ValueError int_limit_message)).
Proof.
  intros Hacc. unfold App.Wallet.credit. unfold bind at 1.
  rewrite (of_int_refused _ _ Hacc). reflexivity.
Qed.

Lemma debit_accepts (amount : Z) (now : datetime) (w : App.Wallet.t) :
  accepted amount = true ->
  amount <= App.Wallet.balance w ->
  App.Wallet.debit amount now w =
  (recorded w (Decimal_sub (App.Wallet.balance w) amount)
            (next_tx w DEBIT amount now),
   inr (next_tx w DEBIT amount now)).
Proof.
  intros Hacc Hle. unfold App.Wallet.debit. unfold bind at 1.
  rewrite (of_int_accepted _ _ Hacc).
  unfold App.Wallet.balance, bind, get in *.
  destruct (Z.ltb_spec (App.Wallet._balance w) amount) as [Hlt | _].
  - lia.
  - reflexivity.
Qed.

Lemma debit_rejects (amount : Z) (now : datetime) (w : App.Wallet.t) :
  accepted amount = true ->
  App.Wallet.balance w < amount ->
  App.Wallet.debit amount now w =
  (w, inl (ValueError ("Insufficient balance:"
                       ++ str_context (App.Wallet.balance w)
                       ++ " < " ++ str amount))).
Proof.
  intros Hacc Hlt. unfold App.Wallet.debit. unfold bind at 1.
  rewrite (of_int_accepted _ _ Hacc).
  unfold App.Wallet.balance, bind, get in *.
  destruct (Z.ltb_spec (App.Wallet._balance w) amount) as [_ | Hle].
  - reflexivity.
  - lia.
Qed.

Lemma debit_refused (amount : Z) (now : datetime) (w : App.Wallet.t) :
  accepted amount = false ->
  App.Wallet.debit amount now w = (w, inl (ValueError int_limit_message)).
Proof.
  intros Hacc. unfold App.Wallet.debit. unfold bind at 1.
  rewrite (of_int_refused _ _ Hacc). reflexivity.
Qed.

(** [task_1.py]: the extra parameter [ref] changes nothing in what
    [credit] does, and [debit] differs by the text of its message. *)
Lemma task1_credit_runs (amount : Z) (ref : string) (now : datetime)
    (w : App.Wallet.t) :
  Task1.Wallet.credit amount ref now w = App.Wallet.credit amount now w.
Proof. reflexivity. Qed.

Lemma task1_debit_accepts (amount : Z) (ref : string) (now : datetime)
    (w : App.Wallet.t) :
  accepted amount = true ->
  amount <= App.Wallet.balance w ->
  Task1.Wallet.debit amount ref now w =
  (recorded w (Decimal_sub (App.Wallet.balance w) amount)
            (next_tx w DEBIT amount now),
   inr (next_tx w DEBIT amount now)).
Proof.
  intros Hacc Hle. unfold Task1.Wallet.debit. unfold bind at 1.
  rewrite (of_int_accepted _ _ Hacc).
  unfold App.Wallet.balance, bind, get in *.
  destruct (Z.ltb_spec (App.Wallet._balance w) amount) as [Hlt | _].
  - lia.
  - reflexivity.
Qed.

Lemma task1_debit_rejects (amount : Z) (ref : string) (now : datetime)
    (w : App.Wallet.t) :
  accepted amount = true ->
  App.Wallet.balance w < amount ->
  Task1.Wallet.debit amount ref now w =
  (w, inl (ValueError ("Insufficient balance: "
                       ++ str_context (App.Wallet.balance w)
                       ++ " < " ++ str amount))).
Proof.
  intros Hacc Hlt. unfold Task1.Wallet.debit. unfold bind at 1.
  rewrite (of_int_accepted _ _ Hacc).
  unfold App.Wallet.balance, bind, get in *.
  destruct (Z.ltb_spec (App.Wallet._balance w) amount) as [_ | Hle].
  - reflexivity.
  - lia.
Qed.

Lemma task1_debit_refused (amount : Z) (ref : string) (now : datetime)
    (w : App.Wallet.t) :
  accepted amount = false ->
  Task1.Wallet.debit amount ref now w
  = (w, inl (ValueError int_limit_message)).
Proof.
  intros Hacc. unfold Task1.Wallet.debit. unfold bind at 1.
  rewrite (of_int_refused _ _ Hacc). reflexivity.
Qed.

(** A call either returns the one transaction it recorded, with the
    balance moved by the context's arithmetic, or raises a [ValueError]
    and leaves the wallet as it was: a debit above the balance, or an
    amount too long to convert. *)
Lemma perform_cases (w : App.Wallet.t) (c : call) :
  (exists k amount now,
      perform c w =
      (recorded w (match k with
                   | CREDIT => Decimal_add (App.Wallet.balance w) amount
                   | DEBIT => Decimal_sub (App.Wallet.balance w) amount
                   end) (next_tx w k amount now),
       inr (next_tx w k amount now))
      /\ accepted amount = true
      /\ match k with
         | CREDIT => c = Credit amount now
         | DEBIT => c = Debit amount now /\ amount <= App.Wallet.balance w
         end)
  \/ (exists msg, perform c w = (w, inl (ValueError msg))).
Proof.
  destruct c as [amount now | amount now]; unfold perform;
    destruct (accepted amount) eqn:Hacc.
  - left. exists CREDIT, amount, now.
    rewrite (credit_runs _ _ _ Hacc). repeat split. exact Hacc.
  - right. eexists. apply credit_refused, Hacc.
  - destruct (Z.lt_ge_cases (App.Wallet.balance w) amount) as [Hlt | Hge].
    + right. eexists. apply debit_rejects; assumption.
    + left. exists DEBIT, amount, now.
      rewrite (debit_accepts _ _ _ Hacc Hge). repeat split; assumption.
  - right. eexists. apply debit_refused, Hacc.
Qed.

Lemma step_cases (w : App.Wallet.t) (c : call) :
  (exists k amount now,
      step w c =
      recorded w (match k with
                  | CREDIT => Decimal_add (App.Wallet.balance w) amount
                  | DEBIT => Decimal_sub (App.Wallet.balance w) amount
                  end) (next_tx w k amount now)
      /\ match k with
         | CREDIT => c = Credit amount now
         | DEBIT => c = Debit amount now /\ amount <= App.Wallet.balance w
         end)
  \/ step w c = w.
Proof.
  unfold step.
  destruct (perform_cases w c)
    as [(k & amount & now & -> & _ & Hk) | (msg & ->)].
  - left. exists k, amount, now. split; [reflexivity | exact Hk].
  - right. reflexivity.
Qed.

(** Invariants of call sequences are proved step by step. *)
Lemma run_snoc (calls : list call) (c : call) (w : App.Wallet.t) :
  run (calls ++ [c]) w = step (run calls w) c.
Proof. unfold run. rewrite fold_left_app. reflexivity. Qed.

Lemma run_invariant (P : App.Wallet.t -> Prop) (allowed : call -> Prop) :
  (forall w c, allowed c -> P w -> P (step w c)) ->
  forall calls w, Forall allowed calls -> P w -> P (run calls w).
Proof.
  intros Hstep calls. induction calls as [| c rest IH]; intros w Hall Hw.
  - exact Hw.
  - inversion Hall as [| ? ? Hc Hrest]; subst. simpl.
    apply IH; [assumption |]. apply Hstep; assumption.
Qed.

Lemma Forall_anything (calls : list call) : Forall (fun _ => True) calls.
Proof. induction calls; constructor; auto. Qed.

(** ** Ledger sums *)

Lemma sum_kind_snoc (k : TxType) (txs : list Transaction.t)
    (tx : Transaction.t) :
  sum_kind k (txs ++ [tx]) =
  sum_kind k txs + sum_kind k [tx].
Proof.
  induction txs as [| t0 rest IH]; simpl.
  - destruct k, (Transaction.tx_type tx); lia.
  - simpl in IH. rewrite IH.
    destruct k, (Transaction.tx_type t0), (Transaction.tx_type tx); lia.
Qed.

Lemma ledger_sum_snoc (txs : list Transaction.t) (tx : Transaction.t) :
  ledger_sum (txs ++ [tx]) =
  match Transaction.tx_type tx with
  | CREDIT => ledger_sum txs + Transaction.amount tx
  | DEBIT => ledger_sum txs - Transaction.amount tx
  end.
Proof.
  unfold ledger_sum. rewrite !sum_kind_snoc. simpl.
  destruct (Transaction.tx_type tx); lia.
Qed.

Lemma step_balanced (w : App.Wallet.t) (c : call) :
  balanced w ->
  Z.abs (ledger_sum (App.Wallet.transactions (step w c))) < 10 ^ 28 ->
  balanced (step w c).
Proof.
  unfold balanced. intros Hw.
  destruct (step_cases w c) as [(k & amount & now & -> & _) | ->];
    [| intros _; exact Hw].
  unfold recorded, App.Wallet.balance in *. simpl.
  rewrite ledger_sum_snoc. simpl. rewrite Hw.
  destruct k; simpl; intros Hbound; apply fix_exact, Hbound.
Qed.

Lemma firstn_snoc_short {A} (n : nat) (l : list A) (x : A) :
  (n <= List.length l)%nat -> firstn n (l ++ [x]) = firstn n l.
Proof.
  intros Hn. rewrite firstn_app.
  replace (n - List.length l)%nat with 0%nat by lia.
  simpl. apply app_nil_r.
Qed.

Lemma within_precision_front (user_id : Z) (calls : list call) (c : call) :
  within_precision user_id (calls ++ [c]) -> within_precision user_id calls.
Proof.
  intros H n.
  destruct (Nat.le_gt_cases n (List.length calls)) as [Hle | Hgt].
  - rewrite <- (firstn_snoc_short n calls c Hle). apply H.
  - rewrite firstn_all2 by lia.
    rewrite <- (firstn_all calls) at 1.
    rewrite <- (firstn_snoc_short (List.length calls) calls c) by lia.
    apply H.
Qed.

Lemma run_balanced (user_id : Z) (calls : list call) :
  within_precision user_id calls ->
  balanced (run calls (App.Wallet.init user_id)).
Proof.
  induction calls as [| c calls IH] using rev_ind; intros H.
  - reflexivity.
  - rewrite run_snoc. apply step_balanced.
    + apply IH, (within_precision_front _ _ c), H.
    + rewrite <- run_snoc.
      rewrite <- (firstn_all (calls ++ [c])) at 1. apply H.
Qed.

(** C4, as the code has it.  The balance is kept by the arithmetic of the
    decimal context, which holds 28 digits.  On a wallet built as
    [Wallet(user_id)], at every point up to which the signed sum of the
    recorded transactions has stayed below 10^28 in absolute value, the
    stored balance is the sum of the amounts of the CREDIT transactions
    minus the sum of the amounts of the DEBIT transactions. *)
Theorem balance_is_ledger_sum (user_id : Z) (calls : list call) :
  within_precision user_id calls ->
  App.Wallet.balance (run calls (App.Wallet.init user_id)) =
  sum_kind CREDIT (App.Wallet.transactions (run calls (App.Wallet.init user_id)))
  - sum_kind DEBIT (App.Wallet.transactions (run calls (App.Wallet.init user_id))).
Proof. intros H. apply (run_balanced _ _ H). Qed.

(** The claim fails once a sum needs 29 digits: a new wallet credited with
    10^28 + 1 records that amount and shows the balance 10^28. *)
Lemma rounding_loses_a_credit :
  App.Wallet.balance (run [Credit (10 ^ 28 + 1) 1] (App.Wallet.init 1))
  = 10 ^ 28
  /\ sum_kind CREDIT
       (App.Wallet.transactions
          (run [Credit (10 ^ 28 + 1) 1] (App.Wallet.init 1)))
     - sum_kind DEBIT
         (App.Wallet.transactions
            (run [Credit (10 ^ 28 + 1) 1] (App.Wallet.init 1)))
     = 10 ^ 28 + 1.
Proof. split; vm_compute; reflexivity. Qed.

(** Scenarios A and B of the specification: credit 500, debit 200, and a
    debit of 400 that is refused. *)
Lemma balance_is_ledger_sum_witness :
  within_precision 1 [Credit 500 1; Debit 200 2; Debit 400 3]
  /\ App.Wallet.balance
       (run [Credit 500 1; Debit 200 2; Debit 400 3] (App.Wallet.init 1))
     = sum_kind CREDIT
         (App.Wallet.transactions
            (run [Credit 500 1; Debit 200 2; Debit 400 3]
                 (App.Wallet.init 1)))
       - sum_kind DEBIT
           (App.Wallet.transactions
              (run [Credit 500 1; Debit 200 2; Debit 400 3]
                   (App.Wallet.init 1))).
Proof.
  assert (H : within_precision 1 [Credit 500 1; Debit 200 2; Debit 400 3]).
  { intros n. do 4 (destruct n as [| n]; [vm_compute; reflexivity |]).
    vm_compute; reflexivity. }
  split; [exact H |].
  apply (balance_is_ledger_sum 1 [Credit 500 1; Debit 200 2; Debit 400 3] H).
Defined.

(** ** The overdraft guard *)

Lemma step_nonneg (w : App.Wallet.t) (c : call) :
  credits_nonneg [c] = true ->
  0 <= App.Wallet.balance w -> 0 <= App.Wallet.balance (step w c).
Proof.
  intros Hc Hw.
  destruct (step_cases w c) as [(k & amount & now & -> & Hk) | ->].
  - unfold recorded, App.Wallet.balance, Decimal_add, Decimal_sub in *.
    simpl. destruct k; apply fix_nonneg.
    + subst c. simpl in Hc. rewrite andb_true_r in Hc.
      apply Z.leb_le in Hc. lia.
    + destruct Hk as [_ Hle]. lia.
  - exact Hw.
Qed.

Lemma credits_nonneg_Forall (calls : list call) :
  credits_nonneg calls = true ->
  Forall (fun c => credits_nonneg [c] = true) calls.
Proof.
  induction calls as [| c rest IH]; intros H; constructor.
  - destruct c; simpl in *; [| reflexivity].
    apply andb_true_iff in H. destruct H as [H _]. rewrite H. reflexivity.
  - apply IH. destruct c; simpl in H; [| exact H].
    apply andb_true_iff in H. tauto.
Qed.

Lemma credits_nonneg_firstn (n : nat) (calls : list call) :
  credits_nonneg calls = true -> credits_nonneg (firstn n calls) = true.
Proof.
  revert calls. induction n as [| n IH]; intros [| c rest] H; try reflexivity.
  destruct c; simpl in *.
  - apply andb_true_iff in H. destruct H as [Ha Hrest].
    rewrite Ha. simpl. apply IH, Hrest.
  - apply IH, H.
Qed.

(** C2, as the code has it.  From a new wallet, after every prefix of any
    sequence of debits (of any amount) and of credits of non-negative
    amounts, the balance is not negative; and a debit that would make it
    negative raises and leaves the wallet, hence its transaction sequence,
    as it was. *)
Theorem balance_never_negative (user_id : Z) (calls : list call) (n : nat) :
  credits_nonneg calls = true ->
  0 <= App.Wallet.balance (run (firstn n calls) (App.Wallet.init user_id))
  /\ forall amount now,
       App.Wallet.balance (run (firstn n calls) (App.Wallet.init user_id))
       - amount < 0 ->
       exists msg,
         App.Wallet.debit amount now
           (run (firstn n calls) (App.Wallet.init user_id)) =
         (run (firstn n calls) (App.Wallet.init user_id),
          inl (ValueError msg)).
Proof.
  intros Hcalls. split.
  - apply run_invariant
      with (P := fun w => 0 <= App.Wallet.balance w)
           (allowed := fun c => credits_nonneg [c] = true).
    + intros w c. apply step_nonneg.
    + apply credits_nonneg_Forall, credits_nonneg_firstn, Hcalls.
    + simpl. lia.
  - intros amount now Hneg. destruct (accepted amount) eqn:Hacc.
    + eexists. apply debit_rejects; [exact Hacc | lia].
    + eexists. apply debit_refused, Hacc.
Qed.

(** The claim fails on a credit of a negative amount: a new wallet
    credited with -5 shows the balance -5. *)
Lemma negative_credit_overdraws :
  App.Wallet.balance (run [Credit (-5) 1] (App.Wallet.init 1)) = -5
  /\ -5 < 0.
Proof. split; reflexivity. Qed.

Lemma balance_never_negative_witness :
  credits_nonneg [Credit 500 1; Debit 200 2; Debit 400 3] = true
  /\ 0 <= App.Wallet.balance
            (run (firstn 3 [Credit 500 1; Debit 200 2; Debit 400 3])
                 (App.Wallet.init 1)).
Proof.
  split; [reflexivity |].
  apply (balance_never_negative 1 [Credit 500 1; Debit 200 2; Debit 400 3] 3).
  reflexivity.
Defined.

(** ** Transaction ids *)







(** ** [Wallet.debit] *)

(** C5, as the code has it.  For an amount of at most 4300 digits,
    [debit(amount)] on a wallet whose balance is below [amount] raises the
    insufficient-balance [ValueError], whose message shows the balance and
    the amount asked for, and leaves the wallet as it was; otherwise it
    records exactly one DEBIT transaction of that amount at the end of the
    history, and the balance becomes [balance - amount] as the decimal
    context computes it: rounded to 28 significant digits, hence lowered by
    exactly [amount] when the difference has at most 28 digits.  An amount
    of more than 4300 digits is refused by the conversion [str(amount)],
    and the wallet is left as it was.  Both copies of the method
    ([models/wallet.py] and [task_1.py]) do so. *)
Theorem debit_guard (w : App.Wallet.t) (amount : Z) (ref : string)
    (now : datetime) :
  (Z.abs amount < 10 ^ 4300 ->
   App.Wallet.balance w < amount ->
   App.Wallet.debit amount now w =
   (w, inl (ValueError ("Insufficient balance:"
                        ++ str_context (App.Wallet.balance w)
                        ++ " < " ++ str amount)))
   /\ Task1.Wallet.debit amount ref now w =
      (w, inl (ValueError ("Insufficient balance: "
                           ++ str_context (App.Wallet.balance w)
                           ++ " < " ++ str amount))))
  /\ (Z.abs amount < 10 ^ 4300 ->
      amount <= App.Wallet.balance w ->
      exists w' tx,
        App.Wallet.debit amount now w = (w', inr tx)
        /\ Task1.Wallet.debit amount ref now w = (w', inr tx)
        /\ App.Wallet.transactions w'
           = (App.Wallet.transactions w ++ [tx])%list
        /\ Transaction.tx_type tx = DEBIT
        /\ Transaction.amount tx = amount
        /\ App.Wallet.balance w'
           = Decimal_sub (App.Wallet.balance w) amount
        /\ (Z.abs (App.Wallet.balance w - amount) < 10 ^ 28 ->
            App.Wallet.balance w' = App.Wallet.balance w - amount)
        /\ App.Wallet.user_id w' = App.Wallet.user_id w)
  /\ (10 ^ 4300 <= Z.abs amount ->
      App.Wallet.debit amount now w
      = (w, inl (ValueError int_limit_message))
      /\ Task1.Wallet.debit amount ref now w
         = (w, inl (ValueError int_limit_message))).
Proof.
  split; [| split].
  - intros Hsize Hlt. apply accepted_below_limit in Hsize. split.
    + apply debit_rejects; assumption.
    + apply task1_debit_rejects; assumption.
  - intros Hsize Hle. apply accepted_below_limit in Hsize.
    exists (recorded w (Decimal_sub (App.Wallet.balance w) amount)
                     (next_tx w DEBIT amount now)),
           (next_tx w DEBIT amount now).
    split; [apply debit_accepts; assumption |].
    split; [apply task1_debit_accepts; assumption |].
    repeat split. intros Hexact. apply fix_exact, Hexact.
  - intros Hsize. apply refused_from_limit in Hsize. split.
    + apply debit_refused, Hsize.
    + apply task1_debit_refused, Hsize.
Qed.

(** The claim fails on a balance of more than 28 digits: on a wallet
    credited with 10^29, [debit(1)] records its DEBIT transaction and the
    balance stays 10^29. *)
Lemma small_debit_leaves_the_balance :
  App.Wallet.balance (run [Credit (10 ^ 29) 1] (App.Wallet.init 1)) = 10 ^ 29
  /\ App.Wallet.debit 1 2 (run [Credit (10 ^ 29) 1] (App.Wallet.init 1))
     = (App.Wallet.mk 1 (10 ^ 29)
          [Transaction.mk 1 1 CREDIT (10 ^ 29) 1;
           Transaction.mk 2 1 DEBIT 1 2],
        inr (Transaction.mk 2 1 DEBIT 1 2)).
Proof. split; vm_compute; reflexivity. Qed.

(** Scenario B of the specification: balance 300, [debit(400)]. *)
Lemma debit_guard_witness :
  (Z.abs 400 < 10 ^ 4300
   /\ App.Wallet.balance (run [Credit 500 1; Debit 200 2] (App.Wallet.init 1))
      < 400)
  /\ App.Wallet.debit 400 3 (run [Credit 500 1; Debit 200 2] (App.Wallet.init 1))
     = (run [Credit 500 1; Debit 200 2] (App.Wallet.init 1),
        inl (ValueError "Insufficient balance:300 < 400")).
Proof.
  assert (Hsize : Z.abs 400 < 10 ^ 4300) by (vm_compute; reflexivity).
  assert (Hlt : App.Wallet.balance
                  (run [Credit 500 1; Debit 200 2] (App.Wallet.init 1)) < 400)
    by (vm_compute; reflexivity).
  split; [split; assumption |].
  apply (debit_guard (run [Credit 500 1; Debit 200 2] (App.Wallet.init 1))
                     400 "job" 3); assumption.
Defined.

(** ** Amounts that are not positive *)

(** C6, as the code has it.  Neither method checks the sign of the amount
    and no call is rejected for it.  With [amount <= 0] of at most 4300
    digits, [credit] records a CREDIT transaction of that amount and adds
    it to the balance; [debit] is rejected only by the balance guard
    ([balance < amount]), before anything is changed, and otherwise records
    a DEBIT transaction of that amount and subtracts it from the balance.
    The sum and the difference are those of the decimal context: rounded to
    28 significant digits, exact when they have at most 28 digits. *)
Theorem nonpositive_amount_not_validated (w : App.Wallet.t) (amount : Z)
    (now : datetime) :
  amount <= 0 ->
  - 10 ^ 4300 < amount ->
  (exists w' tx,
      App.Wallet.credit amount now w = (w', inr tx)
      /\ App.Wallet.transactions w' = (App.Wallet.transactions w ++ [tx])%list
      /\ Transaction.tx_type tx = CREDIT
      /\ Transaction.amount tx = amount
      /\ App.Wallet.balance w' = Decimal_add (App.Wallet.balance w) amount
      /\ (Z.abs (App.Wallet.balance w + amount) < 10 ^ 28 ->
          App.Wallet.balance w' = App.Wallet.balance w + amount))
  /\ (App.Wallet.balance w < amount ->
      exists msg, App.Wallet.debit amount now w = (w, inl (ValueError msg)))
  /\ (amount <= App.Wallet.balance w ->
      exists w' tx,
        App.Wallet.debit amount now w = (w', inr tx)
        /\ App.Wallet.transactions w'
           = (App.Wallet.transactions w ++ [tx])%list
        /\ Transaction.tx_type tx = DEBIT
        /\ Transaction.amount tx = amount
        /\ App.Wallet.balance w' = Decimal_sub (App.Wallet.balance w) amount
        /\ (Z.abs (App.Wallet.balance w - amount) < 10 ^ 28 ->
            App.Wallet.balance w' = App.Wallet.balance w - amount)).
Proof.
  intros Hsign Hsize.
  pose proof (accepted_nonpositive amount Hsign Hsize) as Hacc.
  clear Hsize.
  split; [| split].
  - exists (recorded w (Decimal_add (App.Wallet.balance w) amount)
                     (next_tx w CREDIT amount now)),
           (next_tx w CREDIT amount now).
    split; [apply credit_runs, Hacc |].
    repeat split. intros Hexact. apply fix_exact, Hexact.
  - intros Hlt. eexists. apply debit_rejects; assumption.
  - intros Hle.
    exists (recorded w (Decimal_sub (App.Wallet.balance w) amount)
                     (next_tx w DEBIT amount now)),
           (next_tx w DEBIT amount now).
    split; [apply debit_accepts; assumption |].
    repeat split. intros Hexact. apply fix_exact, Hexact.
Qed.

(** The claim fails at [credit(-5)] and at [debit(0)] on a new wallet:
    both return the transaction they recorded. *)
Lemma nonpositive_amounts_are_recorded :
  App.Wallet.credit (-5) 1 (App.Wallet.init 1) =
  (App.Wallet.mk 1 (-5) [Transaction.mk 1 1 CREDIT (-5) 1],
   inr (Transaction.mk 1 1 CREDIT (-5) 1))
  /\ App.Wallet.debit 0 1 (App.Wallet.init 1) =
     (App.Wallet.mk 1 0 [Transaction.mk 1 1 DEBIT 0 1],
      inr (Transaction.mk 1 1 DEBIT 0 1)).
Proof. split; reflexivity. Qed.

Lemma nonpositive_amount_not_validated_witness :
  (-5 <= 0 /\ - 10 ^ 4300 < -5)
  /\ exists w' tx,
      App.Wallet.credit (-5) 1 (App.Wallet.init 1) = (w', inr tx)
      /\ App.Wallet.transactions w'
         = (App.Wallet.transactions (App.Wallet.init 1) ++ [tx])%list
      /\ Transaction.tx_type tx = CREDIT
      /\ Transaction.amount tx = -5
      /\ App.Wallet.balance w'
         = Decimal_add (App.Wallet.balance (App.Wallet.init 1)) (-5)
      /\ (Z.abs (App.Wallet.balance (App.Wallet.init 1) + -5) < 10 ^ 28 ->
          App.Wallet.balance w' = App.Wallet.balance (App.Wallet.init 1) + -5).
Proof.
  assert (Hsign : -5 <= 0) by (vm_compute; discriminate).
  assert (Hsize : - 10 ^ 4300 < -5) by (vm_compute; reflexivity).
  split; [split; assumption |].
  apply (nonpositive_amount_not_validated (App.Wallet.init 1) (-5) 1);
    assumption.
Defined.

(** C10, as the code has it.  On a wallet whose balance is not negative,
    [debit] of a strictly negative amount of at most 4300 digits does not
    raise: the guard [balance < amount] is false and a DEBIT transaction
    carrying the negative amount is recorded.  The balance becomes
    [balance + |amount|] rounded to 28 significant digits: it grows by the
    absolute value of the amount when that sum has at most 28 digits.  Both
    copies of the method do so. *)
Theorem debit_of_negative_amount (w : App.Wallet.t) (amount : Z)
    (ref : string) (now : datetime) :
  0 <= App.Wallet.balance w ->
  amount < 0 ->
  - 10 ^ 4300 < amount ->
  (App.Wallet.balance w <? amount) = false
  /\ exists w' tx,
      App.Wallet.debit amount now w = (w', inr tx)
      /\ Task1.Wallet.debit amount ref now w = (w', inr tx)
      /\ App.Wallet.transactions w' = (App.Wallet.transactions w ++ [tx])%list
      /\ Transaction.tx_type tx = DEBIT
      /\ Transaction.amount tx = amount
      /\ App.Wallet.balance w'
         = Decimal_fix (App.Wallet.balance w + Z.abs amount)
      /\ (App.Wallet.balance w + Z.abs amount < 10 ^ 28 ->
          App.Wallet.balance w' = App.Wallet.balance w + Z.abs amount).
Proof.
  intros Hbal Hneg Hsize.
  pose proof (accepted_nonpositive amount (Z.lt_le_incl _ _ Hneg) Hsize)
    as Hacc.
  clear Hsize.
  split; [apply Z.ltb_ge; lia |].
  exists (recorded w (Decimal_sub (App.Wallet.balance w) amount)
                   (next_tx w DEBIT amount now)),
         (next_tx w DEBIT amount now).
  split; [apply debit_accepts; [assumption | lia] |].
  split; [apply task1_debit_accepts; [assumption | lia] |].
  assert (Hsum : App.Wallet.balance w - amount
                 = App.Wallet.balance w + Z.abs amount) by lia.
  unfold recorded, Decimal_sub. simpl. rewrite Hsum.
  repeat split. intros Hexact. apply fix_exact. lia.
Qed.

(** The claim fails once the sum needs 29 digits: on a new wallet,
    [debit(-(10^28 + 1))] records its transaction and leaves the balance
    10^28, which is less than the absolute value of the amount. *)
Lemma negative_debit_is_rounded :
  App.Wallet.debit (- (10 ^ 28 + 1)) 1 (App.Wallet.init 1)
  = (App.Wallet.mk 1 (10 ^ 28)
       [Transaction.mk 1 1 DEBIT (- (10 ^ 28 + 1)) 1],
     inr (Transaction.mk 1 1 DEBIT (- (10 ^ 28 + 1)) 1))
  /\ App.Wallet.balance (App.Wallet.init 1) + Z.abs (- (10 ^ 28 + 1))
     = 10 ^ 28 + 1.
Proof. split; vm_compute; reflexivity. Qed.

Lemma debit_of_negative_amount_witness :
  (0 <= App.Wallet.balance (App.Wallet.init 1)
   /\ -5 < 0
   /\ - 10 ^ 4300 < -5)
  /\ exists w' tx,
      App.Wallet.debit (-5) 1 (App.Wallet.init 1) = (w', inr tx)
      /\ Task1.Wallet.debit (-5) "refund" 1 (App.Wallet.init 1) = (w', inr tx)
      /\ App.Wallet.transactions w'
         = (App.Wallet.transactions (App.Wallet.init 1) ++ [tx])%list
      /\ Transaction.tx_type tx = DEBIT
      /\ Transaction.amount tx = -5
      /\ App.Wallet.balance w'
         = Decimal_fix (App.Wallet.balance (App.Wallet.init 1) + Z.abs (-5))
      /\ (App.Wallet.balance (App.Wallet.init 1) + Z.abs (-5) < 10 ^ 28 ->
          App.Wallet.balance w'
          = App.Wallet.balance (App.Wallet.init 1) + Z.abs (-5)).
Proof.
  assert (Hbal : 0 <= App.Wallet.balance (App.Wallet.init 1))
    by (vm_compute; discriminate).
  assert (Hneg : -5 < 0) by (vm_compute; reflexivity).
  assert (Hsize : - 10 ^ 4300 < -5) by (vm_compute; reflexivity).
  split; [repeat split; assumption |].
  apply (debit_of_negative_amount (App.Wallet.init 1) (-5) "refund" 1);
    assumption.
Defined.

(** ** The job lifecycle *)

(** C3, as the code has it.  [start], [finish_ok] and [finish_error] do
    not look at the current status and never raise.  From every job, in
    whatever status, [start] sets the status to RUNNING and [started_at];
    [finish_ok] sets the status to DONE and attaches summary, clauses,
    score and [finished_at]; [finish_error] sets the status to ERROR, the
    summary to "Error: " followed by the message, and [finished_at]; each
    leaves every other field as it was.  Called in order on a QUEUED job
    they therefore take it QUEUED, RUNNING, then DONE or ERROR. *)
Theorem lifecycle_methods_unguarded (j : App.MLJob.t) (now : datetime)
    (summary : string) (clauses : list RiskClause.t) (score : float)
    (msg : string) :
  App.MLJob.start now j =
  (App.MLJob.mk (App.MLJob.id j) (App.MLJob.document j) (App.MLJob.model j)
                RUNNING
                (App.MLJob.summary_depth j) (App.MLJob.used_credits j)
                (App.MLJob.summary_text j) (App.MLJob.risk_score j)
                (App.MLJob.risk_clauses j)
                (Some now) (App.MLJob.finished_at j),
   inr tt)
  /\ App.MLJob.finish_ok summary clauses score now j =
     (App.MLJob.mk (App.MLJob.id j) (App.MLJob.document j) (App.MLJob.model j)
                   DONE
                   (App.MLJob.summary_depth j) (App.MLJob.used_credits j)
                   (Some summary) (Some score) clauses
                   (App.MLJob.started_at j) (Some now),
      inr tt)
  /\ App.MLJob.finish_error msg now j =
     (App.MLJob.mk (App.MLJob.id j) (App.MLJob.document j) (App.MLJob.model j)
                   ERROR
                   (App.MLJob.summary_depth j) (App.MLJob.used_credits j)
                   (Some ("Error: " ++ msg)) (App.MLJob.risk_score j)
                   (App.MLJob.risk_clauses j)
                   (App.MLJob.started_at j) (Some now),
      inr tt).
Proof. repeat split. Qed.

(** The claim fails on a finished job (the last step of the
    specification's scenario E): [start] on a DONE job returns, and the job
    is RUNNING again with a new [started_at]; likewise a second
    [finish_error] returns and overwrites the summary. *)
Lemma start_on_done_job_returns :
  App.MLJob.status demo_job_done = DONE
  /\ outcome (App.MLJob.start 30 demo_job_done) = inr tt
  /\ App.MLJob.status (state_of (App.MLJob.start 30 demo_job_done)) = RUNNING
  /\ App.MLJob.started_at (state_of (App.MLJob.start 30 demo_job_done))
     = Some 30
  /\ outcome (App.MLJob.finish_error "late" 40 demo_job_done) = inr tt
  /\ App.MLJob.status (state_of (App.MLJob.finish_error "late" 40 demo_job_done))
     = ERROR
  /\ App.MLJob.summary_text
       (state_of (App.MLJob.finish_error "late" 40 demo_job_done))
     = Some "Error: late".
Proof. repeat split. Qed.

(** ** [User] and [MLJob.enqueue] in the package *)

Lemma set_wallet_same (u : App.User.t) (w : App.Wallet.t) :
  App.User.wallet u = Some w -> App.User.set_wallet u (Some w) = u.
Proof. destruct u. simpl. intros ->. reflexivity. Qed.

Lemma on_wallet_raise {A} (u : App.User.t) :
  App.User.on_wallet (raise (A := A) TypeError) u = (u, inl (call_error u)).
Proof.
  unfold App.User.on_wallet, call_error, raise.
  destruct (App.User.wallet u) as [w |] eqn:Hw; [| reflexivity].
  rewrite (set_wallet_same _ _ Hw). reflexivity.
Qed.

Lemma app_user_credit_raises (u : App.User.t) (amount : Z) (ref : string)
    (now : datetime) :
  App.User.credit amount ref now u = (u, inl (call_error u)).
Proof. apply on_wallet_raise. Qed.

Lemma app_user_debit_raises (u : App.User.t) (amount : Z) (ref : string)
    (now : datetime) :
  App.User.debit amount ref now u = (u, inl (call_error u)).
Proof. apply on_wallet_raise. Qed.

(** C7 on the package.  [User.credit] and [User.debit] pass [ref] on to
    [Wallet.credit] and [Wallet.debit], which take [amount] only: whatever
    the amount, the call raises ([TypeError]; [AttributeError] when the
    user has no wallet), nothing is recorded and no transaction is
    returned.  The same holds of [Admin.credit_user], which goes through
    [User.credit]. *)
Theorem app_user_credit_debit_raise (u : App.User.t) (amount : Z)
    (ref : string) (now : datetime) :
  App.User.credit amount ref now u = (u, inl (call_error u))
  /\ App.User.debit amount ref now u = (u, inl (call_error u))
  /\ App.Admin.credit_user amount ref now u = (u, inl (call_error u)).
Proof.
  repeat split;
    [apply app_user_credit_raises | apply app_user_debit_raises
     | apply app_user_credit_raises].
Qed.

(** C1 on the package.  [enqueue] charges through [User.debit], so it
    raises for every user, document and model, whatever the balance; the
    user is left as it was and no job is built.  The error is the one of
    the refused call ([call_error]: [TypeError], or [AttributeError]
    without a wallet), unless the product [pages * price_per_page] has more
    than 4300 digits: then the conversion of the cost has raised before. *)
Theorem app_enqueue_raises (u : App.User.t) (document : Document.t)
    (model : Model.t) (depth : SummaryDepth) (now : datetime) :
  (exists e, App.MLJob.enqueue document model depth now u = (u, inl e))
  /\ (Z.abs (Document.pages document * Model.price_per_page model)
      < 10 ^ 4300 ->
      App.MLJob.enqueue document model depth now u = (u, inl (call_error u)))
  /\ (10 ^ 4300
      <= Z.abs (Document.pages document * Model.price_per_page model) ->
      App.MLJob.enqueue document model depth now u
      = (u, inl (ValueError int_limit_message))).
Proof.
  assert (Hin : accepted (Document.pages document * Model.price_per_page model)
                = true ->
                App.MLJob.enqueue document model depth now u
                = (u, inl (call_error u))).
  { intros Hacc. unfold App.MLJob.enqueue. unfold bind at 1.
    rewrite (of_int_accepted _ _ Hacc). unfold bind.
    rewrite app_user_debit_raises. reflexivity. }
  assert (Hout : accepted (Document.pages document * Model.price_per_page model)
                 = false ->
                 App.MLJob.enqueue document model depth now u
                 = (u, inl (ValueError int_limit_message))).
  { intros Hacc. unfold App.MLJob.enqueue. unfold bind at 1.
    rewrite (of_int_refused _ _ Hacc). reflexivity. }
  split; [| split].
  - destruct (accepted (Document.pages document * Model.price_per_page model))
      eqn:Hacc; eexists; [apply Hin | apply Hout]; reflexivity.
  - intros Hsize. apply Hin, accepted_below_limit, Hsize.
  - intros Hsize. apply Hout, refused_from_limit, Hsize.
Qed.

(** C8 on the package: scenario C of the specification (8 pages, 3 credits
    a page, balance 500).  [enqueue] raises [TypeError]; the balance is
    still 500 and the history still holds the top-up alone. *)
Theorem app_enqueue_scenario_C :
  App.User.balance (demo_user 500) = 500
  /\ App.MLJob.enqueue demo_document demo_model BULLET 5 (demo_user 500)
     = (demo_user 500, inl TypeError).
Proof. split; reflexivity. Qed.

(** ** [User] and [MLJob.enqueue] in [task_1.py] *)

Lemma task1_user_credit_runs (u : App.User.t) (w : App.Wallet.t)
    (amount : Z) (ref : string) (now : datetime) :
  App.User.wallet u = Some w ->
  Task1.User.credit amount ref now u =
  (App.User.set_wallet u
     (Some (state_of (Task1.Wallet.credit amount ref now w))),
   outcome (Task1.Wallet.credit amount ref now w)).
Proof.
  intros Hw. unfold Task1.User.credit, App.User.on_wallet.
  rewrite Hw. unfold Task1.Wallet.call_credit.
  destruct (Task1.Wallet.credit amount ref now w). reflexivity.
Qed.

Lemma task1_user_debit_runs (u : App.User.t) (w : App.Wallet.t)
    (amount : Z) (ref : string) (now : datetime) :
  App.User.wallet u = Some w ->
  Task1.User.debit amount ref now u =
  (App.User.set_wallet u
     (Some (state_of (Task1.Wallet.debit amount ref now w))),
   outcome (Task1.Wallet.debit amount ref now w)).
Proof.
  intros Hw. unfold Task1.User.debit, App.User.on_wallet.
  rewrite Hw. unfold Task1.Wallet.call_debit.
  destruct (Task1.Wallet.debit amount ref now w). reflexivity.
Qed.

Lemma task1_enqueue_charges (u : App.User.t) (w : App.Wallet.t)
    (document : Document.t) (model : Model.t) (depth : SummaryDepth)
    (now : datetime) :
  App.User.wallet u = Some w ->
  accepted (Document.pages document * Model.price_per_page model) = true ->
  Document.pages document * Model.price_per_page model
  <= App.Wallet.balance w ->
  Task1.MLJob.enqueue document model depth now u
  = (App.User.set_wallet u
       (Some (recorded w
                (Decimal_sub (App.Wallet.balance w)
                   (Document.pages document * Model.price_per_page model))
                (next_tx w DEBIT
                   (Document.pages document * Model.price_per_page model)
                   now))),
     inr (App.MLJob.mk 1 document model QUEUED depth
            (Document.pages document * Model.price_per_page model)
            None None [] None None)).
Proof.
  intros Hw Hacc Hle. unfold Task1.MLJob.enqueue. unfold bind at 1.
  rewrite (of_int_accepted _ _ Hacc). unfold bind.
  rewrite (task1_user_debit_runs _ _ _ _ _ Hw).
  rewrite (task1_debit_accepts _ _ _ _ Hacc Hle). reflexivity.
Qed.

Lemma task1_enqueue_refused (u : App.User.t) (document : Document.t)
    (model : Model.t) (depth : SummaryDepth) (now : datetime) :
  accepted (Document.pages document * Model.price_per_page model) = false ->
  Task1.MLJob.enqueue document model depth now u
  = (u, inl (ValueError int_limit_message)).
Proof.
  intros Hacc. unfold Task1.MLJob.enqueue. unfold bind at 1.
  rewrite (of_int_refused _ _ Hacc). reflexivity.
Qed.

(** X2.  In [task_1.py], where [Wallet.credit] and [Wallet.debit] take [ref],
    [User.credit] and [User.debit] run the wallet's method on the user's
    own wallet and hand back its transaction or its error; [User.credit]
    returns, for every amount of at most 4300 digits, the CREDIT
    transaction it recorded, with the balance raised by the amount as the
    decimal context adds (exactly, when the sum has at most 28 digits); a
    longer amount is refused by its conversion and the user is left as it
    was. *)
Theorem task1_user_delegates (u : App.User.t) (w : App.Wallet.t)
    (amount : Z) (ref : string) (now : datetime) :
  App.User.wallet u = Some w ->
  Task1.User.credit amount ref now u =
  (App.User.set_wallet u
     (Some (state_of (Task1.Wallet.credit amount ref now w))),
   outcome (Task1.Wallet.credit amount ref now w))
  /\ Task1.User.debit amount ref now u =
     (App.User.set_wallet u
        (Some (state_of (Task1.Wallet.debit amount ref now w))),
      outcome (Task1.Wallet.debit amount ref now w))
  /\ (Z.abs amount < 10 ^ 4300 ->
      exists w' tx,
        Task1.User.credit amount ref now u
        = (App.User.set_wallet u (Some w'), inr tx)
        /\ App.Wallet.transactions w'
           = (App.Wallet.transactions w ++ [tx])%list
        /\ Transaction.tx_type tx = CREDIT
        /\ Transaction.amount tx = amount
        /\ App.Wallet.balance w' = Decimal_add (App.Wallet.balance w) amount
        /\ (Z.abs (App.Wallet.balance w + amount) < 10 ^ 28 ->
            App.Wallet.balance w' = App.Wallet.balance w + amount))
  /\ (10 ^ 4300 <= Z.abs amount ->
      Task1.User.credit amount ref now u
      = (u, inl (ValueError int_limit_message))).
Proof.
  intros Hw. split; [apply task1_user_credit_runs, Hw |].
  split; [apply task1_user_debit_runs, Hw |]. split.
  - intros Hsize. apply accepted_below_limit in Hsize.
    exists (recorded w (Decimal_add (App.Wallet.balance w) amount)
                     (next_tx w CREDIT amount now)),
           (next_tx w CREDIT amount now).
    split.
    + rewrite (task1_user_credit_runs _ _ _ _ _ Hw), task1_credit_runs.
      rewrite (credit_runs _ _ _ Hsize). reflexivity.
    + repeat split. intros Hexact. apply fix_exact, Hexact.
  - intros Hsize. apply refused_from_limit in Hsize.
    rewrite (task1_user_credit_runs _ _ _ _ _ Hw), task1_credit_runs.
    rewrite (credit_refused _ _ _ Hsize).
    unfold state_of, outcome; simpl.
    rewrite (set_wallet_same _ _ Hw). reflexivity.
Qed.

(** The first top-up of [main.py]: [user.credit(500, "initial_payment")]. *)
Lemma task1_user_delegates_witness :
  App.User.wallet (demo_user 0) = Some (demo_wallet 0)
  /\ Task1.User.credit 500 "initial_payment" 2 (demo_user 0) =
     (App.User.set_wallet (demo_user 0)
        (Some (state_of (Task1.Wallet.credit 500 "initial_payment" 2
                           (demo_wallet 0)))),
      outcome (Task1.Wallet.credit 500 "initial_payment" 2 (demo_wallet 0))).
Proof.
  split; [reflexivity |].
  apply (task1_user_delegates (demo_user 0) (demo_wallet 0)
                              500 "initial_payment" 2).
  reflexivity.
Defined.

(** X1.  In [task_1.py], [enqueue] is atomic in the charge.  With a cost
    [pages * price_per_page] of at most 4300 digits: when the balance is
    below the cost it raises the error [Wallet.debit] raised, the user and
    the wallet are as they were and no job is built; otherwise exactly one
    DEBIT transaction of the cost is recorded, the balance becomes
    [balance - cost] as the decimal context subtracts (exactly, when the
    difference has at most 28 digits), and one QUEUED job that carries the
    cost is returned.  A longer cost is refused by its conversion: the user
    is as it was and no job is built. *)
Theorem task1_enqueue_atomic (u : App.User.t) (w : App.Wallet.t)
    (document : Document.t) (model : Model.t) (depth : SummaryDepth)
    (now : datetime) :
  App.User.wallet u = Some w ->
  (Z.abs (Document.pages document * Model.price_per_page model)
   < 10 ^ 4300 ->
   App.Wallet.balance w
   < Document.pages document * Model.price_per_page model ->
   exists e,
     Task1.Wallet.debit
       (Document.pages document * Model.price_per_page model)
       ("ML processing: " ++ Document.filename document) now w
     = (w, inl e)
     /\ Task1.MLJob.enqueue document model depth now u = (u, inl e))
  /\ (Z.abs (Document.pages document * Model.price_per_page model)
      < 10 ^ 4300 ->
      Document.pages document * Model.price_per_page model
      <= App.Wallet.balance w ->
      exists w' tx job,
        Task1.MLJob.enqueue document model depth now u
        = (App.User.set_wallet u (Some w'), inr job)
        /\ App.Wallet.transactions w'
           = (App.Wallet.transactions w ++ [tx])%list
        /\ Transaction.tx_type tx = DEBIT
        /\ Transaction.amount tx
           = Document.pages document * Model.price_per_page model
        /\ App.Wallet.balance w'
           = Decimal_sub (App.Wallet.balance w)
               (Document.pages document * Model.price_per_page model)
        /\ (Z.abs (App.Wallet.balance w
                   - Document.pages document * Model.price_per_page model)
            < 10 ^ 28 ->
            App.Wallet.balance w'
            = App.Wallet.balance w
              - Document.pages document * Model.price_per_page model)
        /\ job = App.MLJob.mk 1 document model QUEUED depth
                   (Document.pages document * Model.price_per_page model)
                   None None [] None None)
  /\ (10 ^ 4300
      <= Z.abs (Document.pages document * Model.price_per_page model) ->
      Task1.MLJob.enqueue document model depth now u
      = (u, inl (ValueError int_limit_message))).
Proof.
  intros Hw. split; [| split].
  - intros Hsize Hlt. apply accepted_below_limit in Hsize.
    eexists. split; [apply task1_debit_rejects; assumption |].
    unfold Task1.MLJob.enqueue. unfold bind at 1.
    rewrite (of_int_accepted _ _ Hsize). unfold bind.
    rewrite (task1_user_debit_runs _ _ _ _ _ Hw).
    rewrite (task1_debit_rejects _ _ _ _ Hsize Hlt).
    unfold state_of, outcome; simpl.
    rewrite (set_wallet_same _ _ Hw). reflexivity.
  - intros Hsize Hle. apply accepted_below_limit in Hsize.
    eexists. eexists. eexists.
    split; [apply (task1_enqueue_charges _ _ _ _ _ _ Hw Hsize Hle) |].
    repeat split. intros Hexact. apply fix_exact, Hexact.
  - intros Hsize. apply task1_enqueue_refused, refused_from_limit, Hsize.
Qed.

(** Scenario D of the specification: balance 10, cost 24. *)
Lemma task1_enqueue_atomic_witness :
  (App.User.wallet (demo_user 10) = Some (demo_wallet 10)
   /\ Z.abs (Document.pages demo_document * Model.price_per_page demo_model)
      < 10 ^ 4300
   /\ App.Wallet.balance (demo_wallet 10)
      < Document.pages demo_document * Model.price_per_page demo_model)
  /\ exists e,
      Task1.Wallet.debit
        (Document.pages demo_document * Model.price_per_page demo_model)
        ("ML processing: " ++ Document.filename demo_document) 5
        (demo_wallet 10)
      = (demo_wallet 10, inl e)
      /\ Task1.MLJob.enqueue demo_document demo_model BULLET 5 (demo_user 10)
         = (demo_user 10, inl e).
Proof.
  assert (Hw : App.User.wallet (demo_user 10) = Some (demo_wallet 10))
    by reflexivity.
  assert (Hsize : Z.abs (Document.pages demo_document
                         * Model.price_per_page demo_model) < 10 ^ 4300)
    by (vm_compute; reflexivity).
  assert (Hlt : App.Wallet.balance (demo_wallet 10)
                < Document.pages demo_document
                  * Model.price_per_page demo_model)
    by (vm_compute; reflexivity).
  split; [repeat split; assumption |].
  apply (task1_enqueue_atomic (demo_user 10) (demo_wallet 10)
                              demo_document demo_model BULLET 5 Hw);
    assumption.
Defined.

(** X3.  In [task_1.py], with a cost [pages * price_per_page] of at most
    4300 digits and a balance of at least the cost, [enqueue] debits the
    cost (the balance is [balance - cost] as the decimal context subtracts:
    exactly that difference when it has at most 28 digits) and returns a
    job that is QUEUED, carries the exact product as [used_credits] and has
    neither [started_at] nor [finished_at]. *)
Theorem task1_enqueue_charges_cost (u : App.User.t) (w : App.Wallet.t)
    (document : Document.t) (model : Model.t) (depth : SummaryDepth)
    (now : datetime) :
  App.User.wallet u = Some w ->
  Z.abs (Document.pages document * Model.price_per_page model) < 10 ^ 4300 ->
  Document.pages document * Model.price_per_page model
  <= App.Wallet.balance w ->
  exists u' job,
    Task1.MLJob.enqueue document model depth now u = (u', inr job)
    /\ App.User.balance u'
       = Decimal_sub (App.Wallet.balance w)
           (Document.pages document * Model.price_per_page model)
    /\ (Z.abs (App.Wallet.balance w
               - Document.pages document * Model.price_per_page model)
        < 10 ^ 28 ->
        App.User.balance u'
        = App.Wallet.balance w
          - Document.pages document * Model.price_per_page model)
    /\ App.MLJob.status job = QUEUED
    /\ App.MLJob.used_credits job
       = Document.pages document * Model.price_per_page model
    /\ App.MLJob.started_at job = None
    /\ App.MLJob.finished_at job = None.
Proof.
  intros Hw Hsize Hle. apply accepted_below_limit in Hsize.
  eexists. eexists.
  split; [apply (task1_enqueue_charges _ _ _ _ _ _ Hw Hsize Hle) |].
  repeat split. intros Hexact. apply fix_exact, Hexact.
Qed.

(** Scenario C of the specification: 8 pages at 3 credits, balance 500;
    24 credits are debited and 476 are left. *)
Lemma task1_enqueue_charges_cost_witness :
  (App.User.wallet (demo_user 500) = Some (demo_wallet 500)
   /\ Z.abs (Document.pages demo_document * Model.price_per_page demo_model)
      < 10 ^ 4300
   /\ Document.pages demo_document * Model.price_per_page demo_model
      <= App.Wallet.balance (demo_wallet 500))
  /\ exists u' job,
      Task1.MLJob.enqueue demo_document demo_model BULLET 5 (demo_user 500)
      = (u', inr job)
      /\ App.User.balance u' = 476
      /\ App.MLJob.status job = QUEUED
      /\ App.MLJob.used_credits job = 24
      /\ App.MLJob.started_at job = None
      /\ App.MLJob.finished_at job = None.
Proof.
  assert (Hw : App.User.wallet (demo_user 500) = Some (demo_wallet 500))
    by reflexivity.
  assert (Hsize : Z.abs (Document.pages demo_document
                         * Model.price_per_page demo_model) < 10 ^ 4300)
    by (vm_compute; reflexivity).
  assert (Hle : Document.pages demo_document * Model.price_per_page demo_model
                <= App.Wallet.balance (demo_wallet 500))
    by (vm_compute; discriminate).
  split; [repeat split; assumption |].
  destruct (task1_enqueue_charges_cost (demo_user 500) (demo_wallet 500)
              demo_document demo_model BULLET 5 Hw Hsize Hle)
    as (u' & job & Hrun & _ & Hexact & Hjob).
  exists u', job. split; [exact Hrun |]. split; [| exact Hjob].
  apply Hexact. vm_compute. reflexivity.
Defined.
(** ** More invariants of the ledger *)

Lemma run_app (calls more : list call) (w : App.Wallet.t) :
  run (calls ++ more) w = run more (run calls w).
Proof. unfold run. apply fold_left_app. Qed.

Lemma step_owner (w : App.Wallet.t) (c : call) :
  App.Wallet.user_id (step w c) = App.Wallet.user_id w.
Proof.
  destruct (step_cases w c) as [(k & amount & now & -> & _) | ->];
    reflexivity.
Qed.

Lemma step_owned (w : App.Wallet.t) (c : call) : owned w -> owned (step w c).
Proof.
  unfold owned. intros Hw. rewrite step_owner.
  destruct (step_cases w c) as [(k & amount & now & -> & _) | ->];
    [| exact Hw].
  simpl. apply Forall_app. split; [exact Hw |].
  constructor; [reflexivity | constructor].
Qed.

(** X4.  The wallet of a user never changes hands and holds nothing of
    anybody else: after any sequence of credits and debits on
    [Wallet(user_id)], the wallet still carries that [user_id] and so does
    every transaction of its history. *)
Theorem wallet_transactions_owned (user_id : Z) (calls : list call) :
  App.Wallet.user_id (run calls (App.Wallet.init user_id)) = user_id
  /\ Forall (fun tx => Transaction.user_id tx = user_id)
            (App.Wallet.transactions (run calls (App.Wallet.init user_id))).
Proof.
  assert (H : App.Wallet.user_id (run calls (App.Wallet.init user_id))
              = user_id
              /\ owned (run calls (App.Wallet.init user_id))).
  { apply run_invariant
      with (P := fun w => App.Wallet.user_id w = user_id /\ owned w)
           (allowed := fun _ => True).
    - intros w c _ [Hid Hown]. split.
      + rewrite step_owner. exact Hid.
      + apply step_owned, Hown.
    - apply Forall_anything.
    - split; [reflexivity | constructor]. }
  destruct H as [Hid Hown]. split; [exact Hid |].
  unfold owned in Hown. rewrite Hid in Hown. exact Hown.
Qed.

Lemma run_extends (calls : list call) (w : App.Wallet.t) :
  exists added,
    App.Wallet.transactions (run calls w)
    = (App.Wallet.transactions w ++ added)%list
    /\ (List.length added <= List.length calls)%nat.
Proof.
  revert w. induction calls as [| c rest IH]; intros w.
  - exists []. simpl. rewrite app_nil_r. split; [reflexivity | lia].
  - simpl. destruct (IH (step w c)) as (added & Hrun & Hlen).
    destruct (step_cases w c) as [(k & amount & now & Hstep & _) | Hstep].
    + exists (next_tx w k amount now :: added).
      rewrite Hrun, Hstep. simpl. rewrite <- app_assoc. simpl.
      split; [reflexivity | lia].
    + exists added. rewrite Hrun, Hstep. split; [reflexivity | lia].
Qed.

(** X5.  The history is append-only.  Whatever wallet a program holds and
    whatever calls come later, the transactions recorded so far stay at
    the front of the history, unchanged and in their order; each later
    call adds at most one transaction behind them. *)
Theorem history_is_append_only (w : App.Wallet.t) (calls more : list call) :
  exists added,
    App.Wallet.transactions (run (calls ++ more) w)
    = (App.Wallet.transactions (run calls w) ++ added)%list
    /\ (List.length added <= List.length more)%nat.
Proof. rewrite run_app. apply run_extends. Qed.






(** X8.  The note is dropped.  In [task_1.py] the argument [ref] of
    [Wallet.credit] and [Wallet.debit], and so the [ref] of [User.credit]
    and [User.debit] and the [note] of [Admin.credit_user], has no effect
    on the wallet, on the transaction returned or on the error raised:
    calls that differ in it alone give the same result. *)
Theorem note_never_reaches_the_ledger (amount : Z) (ref1 ref2 : string)
    (now : datetime) (w : App.Wallet.t) (u : App.User.t) :
  Task1.Wallet.credit amount ref1 now w = Task1.Wallet.credit amount ref2 now w
  /\ Task1.Wallet.debit amount ref1 now w
     = Task1.Wallet.debit amount ref2 now w
  /\ Task1.User.credit amount ref1 now u = Task1.User.credit amount ref2 now u
  /\ Task1.User.debit amount ref1 now u = Task1.User.debit amount ref2 now u
  /\ Task1.Admin.credit_user amount ref1 now u
     = Task1.Admin.credit_user amount ref2 now u.
Proof.
  assert (Hd : forall w', Task1.Wallet.debit amount ref1 now w'
                          = Task1.Wallet.debit amount ref2 now w').
  { intros w'. destruct (accepted amount) eqn:Hacc.
    - destruct (Z.lt_ge_cases (App.Wallet.balance w') amount) as [Hlt | Hge].
      + rewrite !(task1_debit_rejects _ _ _ _ Hacc Hlt). reflexivity.
      + rewrite !(task1_debit_accepts _ _ _ _ Hacc Hge). reflexivity.
    - rewrite !(task1_debit_refused _ _ _ _ Hacc). reflexivity. }
  split; [reflexivity |]. split; [apply Hd |]. split; [reflexivity |].
  split; [| reflexivity].
  unfold Task1.User.debit, App.User.on_wallet, Task1.Wallet.call_debit.
  destruct (App.User.wallet u) as [w' |]; [| reflexivity].
  rewrite Hd. reflexivity.
Qed.

Lemma step_in_range (w : App.Wallet.t) (c : call) :
  Z.abs (App.Wallet.balance w) <= 10 ^ 4328 ->
  Z.abs (App.Wallet.balance (step w c)) <= 10 ^ 4328.
Proof.
  intros Hw. unfold step.
  destruct (perform_cases w c)
    as [(k & amount & now & -> & Hacc & _) | (msg & ->)]; [| exact Hw].
  apply accepted_size in Hacc.
  unfold state_of, recorded, App.Wallet.balance, Decimal_add, Decimal_sub
    in *.
  simpl. destruct k.
  - apply (fix_absorbs 4328 4300);
      [clear; lia | clear; lia | exact Hw | exact Hacc].
  - apply (fix_absorbs 4328 4300 _ (- amount));
      [clear; lia | clear; lia | exact Hw | rewrite Z.abs_opp; exact Hacc].
Qed.

(** X15.  A balance stays in range.  Whatever is credited and debited, the
    balance of a wallet never has more than 4329 digits: an amount has at
    most 4300 digits, and a balance of 10^4328 is out of the reach of such
    an amount, which the rounding to 28 digits takes away again.  So the
    exponent of a balance stays far below the limit of the decimal
    context (999999), and no call raises its [Overflow]. *)
Theorem balance_stays_in_range (user_id : Z) (calls : list call) :
  Z.abs (App.Wallet.balance (run calls (App.Wallet.init user_id)))
  <= 10 ^ 4328.
Proof.
  apply run_invariant
    with (P := fun w => Z.abs (App.Wallet.balance w) <= 10 ^ 4328)
         (allowed := fun _ => True).
  - intros w c _. apply step_in_range.
  - apply Forall_anything.
  - change (0 <= 10 ^ 4328). apply Z.pow_nonneg. lia.
Qed.

(** ** Strings and patterns *)

Lemma append_empty_r (s : string) : s ++ "" = s.
Proof. induction s as [| c s IH]; simpl; [| rewrite IH]; reflexivity. Qed.

Lemma length_append (a b : string) :
  String.length (a ++ b) = (String.length a + String.length b)%nat.
Proof. induction a as [| c a IH]; simpl; [| rewrite IH]; reflexivity. Qed.

Lemma nonempty_length (s : string) : s <> "" -> (1 <= String.length s)%nat.
Proof. destruct s; [congruence | simpl; lia]. Qed.

Lemma all_chars_append (p : ascii -> bool) (a b : string) :
  all_chars p (a ++ b) = all_chars p a && all_chars p b.
Proof.
  induction a as [| c a IH]; simpl; [reflexivity |].
  rewrite IH. apply andb_assoc.
Qed.

Lemma all_chars_weaken (p q : ascii -> bool) (s : string) :
  (forall c, p c = true -> q c = true) ->
  all_chars p s = true -> all_chars q s = true.
Proof.
  intros Hpq. induction s as [| c s IH]; simpl; [reflexivity |].
  intros H. apply andb_true_iff in H. destruct H as [Hc Hs].
  rewrite (Hpq _ Hc), (IH Hs). reflexivity.
Qed.

Lemma count_char_append (c : ascii) (a b : string) :
  count_char c (a ++ b) = (count_char c a + count_char c b)%nat.
Proof. induction a as [| c' a IH]; simpl; [| rewrite IH]; lia. Qed.

Lemma all_chars_count (p : ascii -> bool) (c : ascii) (s : string) :
  p c = false -> all_chars p s = true -> count_char c s = 0%nat.
Proof.
  intros Hc. induction s as [| c' s IH]; simpl; [reflexivity |].
  intros H. apply andb_true_iff in H. destruct H as [Hc' Hs].
  rewrite (IH Hs). destruct (Ascii.eqb_spec c' c) as [-> | _]; [| reflexivity].
  congruence.
Qed.

Lemma word_is_word_dot_dash (c : ascii) :
  re.word_char c = true -> re.word_dot_dash c = true.
Proof. unfold re.word_dot_dash. intros ->. reflexivity. Qed.

(** One or more characters of the class, then the rest of the pattern. *)
Lemma plus_loop_splits (cls : ascii -> bool) (k : string -> bool)
    (s : string) :
  re.plus_loop cls k s = true <->
  exists pre post,
    s = pre ++ post /\ pre <> "" /\ all_chars cls pre = true
    /\ k post = true.
Proof.
  induction s as [| c s IH]; simpl.
  - split; [discriminate |].
    intros (pre & post & Hs & Hne & _).
    destruct pre; [congruence | discriminate].
  - rewrite andb_true_iff, orb_true_iff, IH. split.
    + intros [Hc [Hk | (pre & post & -> & Hne & Hall & Hk)]].
      * exists (String c ""), s. simpl. rewrite Hc.
        repeat split; congruence.
      * exists (String c pre), post. simpl. rewrite Hc, Hall.
        repeat split; congruence.
    + intros (pre & post & Hs & Hne & Hall & Hk).
      destruct pre as [| c' pre]; [congruence |].
      simpl in Hs, Hall. injection Hs as <- ->.
      apply andb_true_iff in Hall. destruct Hall as [Hc Hall].
      split; [exact Hc |].
      destruct pre as [| c'' pre].
      * left. exact Hk.
      * right. exists (String c'' pre), post.
        repeat split; congruence.
Qed.

Lemma lit_matches (c : ascii) (rest : list re.token) (b : bool)
    (s : string) :
  re.fullmatch_at (re.Lit c :: rest) b s = true <->
  exists s', s = String c s' /\ re.fullmatch_at rest false s' = true.
Proof.
  simpl. destruct s as [| c' s'].
  - split; [discriminate | intros (? & H & _); discriminate H].
  - rewrite andb_true_iff. split.
    + intros [Hc Hrest]. apply Ascii.eqb_eq in Hc. subst c'.
      exists s'. split; [reflexivity | exact Hrest].
    + intros (s'' & Hs & Hrest). injection Hs as -> ->.
      split; [apply Ascii.eqb_refl | exact Hrest].
Qed.

(** [$] closes the pattern: under [fullmatch] nothing may follow. *)
Lemma eol_matches (b : bool) (s : string) :
  re.fullmatch_at [re.Eol] b s = true <-> s = "".
Proof.
  simpl. destruct s as [| c [| c' s']]; simpl.
  - split; reflexivity.
  - rewrite andb_false_r. split; discriminate.
  - split; discriminate.
Qed.

Lemma email_parts (s : string) :
  re.fullmatch Construct.email_pattern s = true ->
  exists local domain tld,
    s = local ++ "@" ++ domain ++ "." ++ tld
    /\ local <> "" /\ domain <> "" /\ tld <> ""
    /\ all_chars re.word_dot_dash local = true
    /\ all_chars re.word_dot_dash domain = true
    /\ all_chars re.word_char tld = true.
Proof.
  unfold re.fullmatch, Construct.email_pattern.
  change (re.fullmatch_at
            (re.Bol :: re.Plus re.word_dot_dash :: re.Lit "@"
               :: re.Plus re.word_dot_dash :: re.Lit "."
               :: re.Plus re.word_char :: [re.Eol]) true s)
    with (re.plus_loop re.word_dot_dash
            (re.fullmatch_at
               [re.Lit "@"; re.Plus re.word_dot_dash; re.Lit ".";
                re.Plus re.word_char; re.Eol] false) s).
  rewrite plus_loop_splits.
  intros (local & p1 & -> & Hl & Hal & H1).
  apply lit_matches in H1. destruct H1 as (p2 & -> & H2).
  change (re.fullmatch_at
            [re.Plus re.word_dot_dash; re.Lit "."; re.Plus re.word_char;
             re.Eol] false p2)
    with (re.plus_loop re.word_dot_dash
            (re.fullmatch_at
               [re.Lit "."; re.Plus re.word_char; re.Eol] false) p2) in H2.
  apply plus_loop_splits in H2.
  destruct H2 as (domain & p3 & -> & Hd & Had & H3).
  apply lit_matches in H3. destruct H3 as (p4 & -> & H4).
  change (re.fullmatch_at [re.Plus re.word_char; re.Eol] false p4)
    with (re.plus_loop re.word_char (re.fullmatch_at [re.Eol] false) p4)
    in H4.
  apply plus_loop_splits in H4.
  destruct H4 as (tld & p5 & -> & Ht & Hat & H5).
  apply eol_matches in H5. subst p5. rewrite append_empty_r.
  exists local, domain, tld. repeat split; assumption.
Qed.

Lemma parts_are_email (local domain tld : string) :
  local <> "" -> domain <> "" -> tld <> "" ->
  all_chars re.word_dot_dash local = true ->
  all_chars re.word_dot_dash domain = true ->
  all_chars re.word_char tld = true ->
  re.fullmatch Construct.email_pattern
    (local ++ "@" ++ domain ++ "." ++ tld) = true.
Proof.
  intros Hl Hd Ht Hal Had Hat.
  unfold re.fullmatch, Construct.email_pattern.
  change (re.plus_loop re.word_dot_dash
            (re.fullmatch_at
               [re.Lit "@"; re.Plus re.word_dot_dash; re.Lit ".";
                re.Plus re.word_char; re.Eol] false)
            (local ++ "@" ++ domain ++ "." ++ tld) = true).
  apply plus_loop_splits.
  exists local, ("@" ++ domain ++ "." ++ tld).
  repeat split; try assumption.
  apply lit_matches. exists (domain ++ "." ++ tld). split; [reflexivity |].
  change (re.plus_loop re.word_dot_dash
            (re.fullmatch_at
               [re.Lit "."; re.Plus re.word_char; re.Eol] false)
            (domain ++ "." ++ tld) = true).
  apply plus_loop_splits. exists domain, ("." ++ tld).
  repeat split; try assumption.
  apply lit_matches. exists tld. split; [reflexivity |].
  change (re.plus_loop re.word_char (re.fullmatch_at [re.Eol] false) tld
          = true).
  apply plus_loop_splits. exists tld, "".
  rewrite append_empty_r. repeat split; assumption.
Qed.

(** X9.  What [_validate_email] accepts.  The pattern matches a string
    exactly when it reads local "@" domain "." tld with all three parts
    non-empty, the local part and the domain made of word characters, dots
    and dashes, and the tld made of word characters alone. *)
Theorem email_pattern_shape (s : string) :
  re.fullmatch Construct.email_pattern s = true <->
  exists local domain tld,
    s = local ++ "@" ++ domain ++ "." ++ tld
    /\ local <> "" /\ domain <> "" /\ tld <> ""
    /\ all_chars re.word_dot_dash local = true
    /\ all_chars re.word_dot_dash domain = true
    /\ all_chars re.word_char tld = true.
Proof.
  split; [apply email_parts |].
  intros (local & domain & tld & -> & Hl & Hd & Ht & Hal & Had & Hat).
  apply parts_are_email; assumption.
Qed.

(** X10.  Consequences for every address that [_validate_email] lets
    through: it holds exactly one "@", it has at least five characters,
    and each of its characters is a word character, a dot, a dash or the
    "@"; so it holds no blank and no newline, also not at its end. *)
Theorem accepted_email_facts (s : string) :
  re.fullmatch Construct.email_pattern s = true ->
  count_char "@" s = 1%nat
  /\ (5 <= String.length s)%nat
  /\ all_chars (fun c => re.word_dot_dash c || (c =? "@")%char) s = true
  /\ count_char " " s = 0%nat
  /\ count_char "010" s = 0%nat.
Proof.
  intros H. apply email_parts in H.
  destruct H as (local & domain & tld & -> & Hl & Hd & Ht & Hal & Had & Hat).
  pose proof (all_chars_weaken _ _ _ word_is_word_dot_dash Hat) as Hat'.
  assert (Hcount : forall c, re.word_dot_dash c = false ->
            count_char c (local ++ "@" ++ domain ++ "." ++ tld)
            = count_char c "@").
  { intros c Hc. rewrite !count_char_append.
    rewrite (all_chars_count _ _ _ Hc Hal), (all_chars_count _ _ _ Hc Had),
            (all_chars_count _ _ _ Hc Hat').
    assert (count_char c "." = 0%nat) as ->.
    { change (count_char c ".")
        with ((if ("." =? c)%char then 1 else 0) + 0)%nat.
      destruct (Ascii.eqb_spec "." c) as [<- | _];
        [discriminate Hc | reflexivity]. }
    lia. }
  split; [rewrite Hcount by reflexivity; reflexivity |].
  split.
  { rewrite !length_append. simpl.
    apply nonempty_length in Hl, Hd, Ht. lia. }
  split.
  { assert (Hw : forall c, re.word_dot_dash c = true ->
                 re.word_dot_dash c || (c =? "@")%char = true).
    { intros c ->. reflexivity. }
    rewrite !all_chars_append.
    rewrite (all_chars_weaken _ _ _ Hw Hal), (all_chars_weaken _ _ _ Hw Had),
            (all_chars_weaken _ _ _ Hw Hat').
    reflexivity. }
  split; rewrite Hcount by reflexivity; reflexivity.
Qed.

Lemma accepted_email_facts_witness :
  re.fullmatch Construct.email_pattern "karpov@jurist.ru" = true
  /\ count_char "@" "karpov@jurist.ru" = 1%nat.
Proof.
  split; [reflexivity |].
  apply (accepted_email_facts "karpov@jurist.ru"). reflexivity.
Defined.

(** ** Building accounts *)

Lemma construct_cases (id : Z) (username email password : string)
    (role : Role) (wallet : option App.Wallet.t) :
  Construct.User id username email password role wallet =
  if negb (re.fullmatch Construct.email_pattern email) then
    inl (ValueError "Invalid email")
  else if (String.length password <? 8)%nat then
    inl (ValueError "Password must be ≥ 8 chars")
  else
    inr (App.User.mk id username email password role
           (Some match wallet with
                 | Some w => w
                 | None => App.Wallet.init id
                 end)).
Proof.
  unfold Construct.User, Construct.__post_init__, Construct._validate_email,
    Construct._validate_password, bind, get. simpl.
  destruct (re.fullmatch Construct.email_pattern email); simpl;
    [| reflexivity].
  destruct (String.length password <? 8)%nat; simpl; [reflexivity |].
  destruct wallet; reflexivity.
Qed.

(** X11.  Building a user.  The e-mail is checked first and the password
    second: an address the pattern rejects gives [ValueError("Invalid
    email")] whatever the password is; an accepted address with a password
    of fewer than 8 characters gives the password error; otherwise the user
    is built with the fields as passed.  A wallet that is passed in is kept
    as it is, whatever [user_id] it carries; without one the user gets a new
    empty wallet under its own id.  [Admin(...)] builds such a user with the
    role ADMIN and a new wallet. *)
Theorem user_construction (id : Z) (username email password : string)
    (role : Role) (wallet : option App.Wallet.t) :
  (re.fullmatch Construct.email_pattern email = false ->
   Construct.User id username email password role wallet
   = inl (ValueError "Invalid email"))
  /\ (re.fullmatch Construct.email_pattern email = true ->
      (String.length password < 8)%nat ->
      Construct.User id username email password role wallet
      = inl (ValueError "Password must be ≥ 8 chars"))
  /\ (re.fullmatch Construct.email_pattern email = true ->
      (8 <= String.length password)%nat ->
      Construct.User id username email password role wallet
      = inr (App.User.mk id username email password role
               (Some match wallet with
                     | Some w => w
                     | None => App.Wallet.init id
                     end))
      /\ Construct.Admin id username email password
         = inr (App.User.mk id username email password ADMIN
                  (Some (App.Wallet.init id)))).
Proof.
  unfold Construct.Admin. rewrite !construct_cases.
  split; [intros ->; reflexivity |].
  split.
  - intros -> Hlen. apply Nat.ltb_lt in Hlen. simpl. rewrite Hlen.
    reflexivity.
  - intros -> Hlen. apply Nat.ltb_ge in Hlen. simpl. rewrite Hlen.
    split; reflexivity.
Qed.

(** The user of [main.py], with an opaque hash as password. *)
Lemma user_construction_witness :
  (re.fullmatch Construct.email_pattern "karpov@jurist.ru" = true
   /\ (8 <= String.length "$2b$12$opaque.bcrypt.hash")%nat)
  /\ Construct.User 1 "karpov" "karpov@jurist.ru" "$2b$12$opaque.bcrypt.hash"
       USER None
     = inr (App.User.mk 1 "karpov" "karpov@jurist.ru"
              "$2b$12$opaque.bcrypt.hash" USER (Some (App.Wallet.init 1))).
Proof.
  split; [split; [reflexivity | simpl; lia] |].
  apply (user_construction 1 "karpov" "karpov@jurist.ru"
           "$2b$12$opaque.bcrypt.hash" USER None).
  - reflexivity.
  - simpl; lia.
Defined.

(** ** Accounts of [task_1.py] under call sequences *)







(** ** Jobs under call sequences *)

Lemma job_run_snoc (calls : list job_call) (c : job_call) (j : App.MLJob.t) :
  job_run (calls ++ [c]) j = state_of (job_perform c (job_run calls j)).
Proof. unfold job_run. rewrite fold_left_app. reflexivity. Qed.

(** X13.  A job under any sequence of lifecycle calls.  No call raises;
    the charge ([used_credits]) and id, document, model and summary depth
    are never changed; the status after a call is the one that call sets,
    whatever the calls before it were, so once any lifecycle method has
    been called the job is never QUEUED again. *)
Theorem lifecycle_sequences (j : App.MLJob.t) (calls : list job_call) :
  (App.MLJob.used_credits (job_run calls j) = App.MLJob.used_credits j
   /\ App.MLJob.id (job_run calls j) = App.MLJob.id j
   /\ App.MLJob.document (job_run calls j) = App.MLJob.document j
   /\ App.MLJob.model (job_run calls j) = App.MLJob.model j
   /\ App.MLJob.summary_depth (job_run calls j) = App.MLJob.summary_depth j)
  /\ (forall c, outcome (job_perform c (job_run calls j)) = inr tt)
  /\ (forall c,
         App.MLJob.status (job_run (calls ++ [c]) j) = status_set_by c)
  /\ (calls <> [] -> App.MLJob.status (job_run calls j) <> QUEUED).
Proof.
  assert (Hsnoc : forall l c,
             App.MLJob.status (job_run (l ++ [c]) j) = status_set_by c).
  { intros l c. rewrite job_run_snoc. destruct c; reflexivity. }
  split; [| split; [| split]].
  - revert j Hsnoc. induction calls as [| c rest IH]; intros j _.
    + repeat split.
    + change (job_run (c :: rest) j)
        with (job_run rest (state_of (job_perform c j))).
      destruct (IH (state_of (job_perform c j))) as (H1 & H2 & H3 & H4 & H5).
      { intros l c'. rewrite job_run_snoc. destruct c'; reflexivity. }
      rewrite H1, H2, H3, H4, H5. destruct c; repeat split.
  - intros c. destruct c; reflexivity.
  - apply Hsnoc.
  - intros Hne. destruct (exists_last Hne) as (l & c & ->).
    rewrite Hsnoc. destruct c; discriminate.
Qed.

(** ** [Model.predict] *)

Lemma substring_0_length (n : nat) (s : string) :
  String.length (substring 0 n s) = Nat.min n (String.length s).
Proof.
  revert s. induction n as [| n IH]; intros [| c s]; simpl; try reflexivity.
  rewrite IH. reflexivity.
Qed.

Lemma substring_0_all (n : nat) (s : string) :
  (String.length s <= n)%nat -> substring 0 n s = s.
Proof.
  revert s. induction n as [| n IH]; intros [| c s]; simpl; intros H;
    try reflexivity; try lia.
  rewrite IH by lia. reflexivity.
Qed.

Lemma substring_0_prefix (pre rest : string) :
  substring 0 (String.length pre) (pre ++ rest) = pre.
Proof.
  induction pre as [| c pre IH]; simpl.
  - destruct rest; reflexivity.
  - rewrite IH. reflexivity.
Qed.

(** X14.  What [predict] returns.  The result has the length of the
    model's name plus the length of the text, cut at 50, plus 18; a text of
    at most 50 characters appears in it in full; and whatever follows the
    first 50 characters of a text has no influence on the result. *)
Theorem predict_output (m : Model.t) (text : string) :
  String.length (Model.predict m text)
  = (String.length (Model.name m) + Nat.min 50 (String.length text) + 18)%nat
  /\ ((String.length text <= 50)%nat ->
      Model.predict m text
      = "Processed by " ++ Model.name m ++ ": " ++ text ++ "...")
  /\ (forall head tail tail',
         String.length head = 50%nat ->
         Model.predict m (head ++ tail) = Model.predict m (head ++ tail')).
Proof.
  unfold Model.predict. split; [| split].
  - rewrite !length_append, substring_0_length. simpl. lia.
  - intros Hlen. rewrite substring_0_all by exact Hlen. reflexivity.
  - intros head tail tail' Hlen. rewrite <- Hlen, !substring_0_prefix.
    reflexivity.
Qed.
